(** * TimeChimp MCP server: request construction, dispatch and response
    normalisation

    A shallow embedding of [timechimp-mcp-server.js] (class
    [TimechimpMCPServer]): the query-parameter builder, the filter
    composer, the authenticated request executor [makeRequest], the
    generic handlers and the [CallTool] dispatcher, followed by the
    properties of the specification that concern them. *)

From Stdlib Require Import ZArith Ascii String List Lia.
From stdpp Require Import base option gmap strings list pretty.

Local Open Scope Z_scope.

(** ** JavaScript values carried by an argument bag

    The arguments of a tool call arrive as JSON, so a value is [null], a
    boolean, a number, a string, an array or an object; a key that is
    missing reads as [undefined].  Numbers are the integers a double
    holds exactly, which JavaScript renders in decimal.  [VObj] is a
    plain object, one whose keys do not shadow the conversion methods of
    [Object.prototype]: an object with an own [toString] or [valueOf] key
    is not a value of this type, and the conversion of such an object
    throws a [TypeError] where [String_] and [toString] below answer.
    The properties that say which inputs a function accepts therefore
    carry the hypothesis [object_free] on the options it converts. *)
#[warnings="-register-all"]
Inductive value : Type :=
  | VUndefined
  | VNull
  | VBool (b : bool)
  | VNum (n : Z)
  | VStr (s : string)
  | VArr (items : list value)
  | VObj.

(** The argument bag of one invocation: a JavaScript object used as a map. *)
Abbreviation bag := (gmap string value).

(** Reading a property; destructuring [const { k } = args] does the same. *)
Definition prop (args : bag) (k : string) : value :=
  default VUndefined (args !! k).

Definition nonempty (s : string) : bool :=
  match s with
  | EmptyString => false
  | String _ _ => true
  end.

(** [ToBoolean]: what [if (v)] and [v ? a : b] test. *)
Definition truthy (v : value) : bool :=
  match v with
  | VUndefined | VNull => false
  | VBool b => b
  | VNum n => negb (n =? 0)
  | VStr s => nonempty s
  | VArr _ | VObj => true
  end.

(** [ToString]: what a template literal [`${v}`] and the string
    conversions of the Web APIs produce.  An array joins its elements
    with a comma, [null] and [undefined] elements rendering as nothing. *)
Fixpoint String_ (v : value) : string :=
  match v with
  | VUndefined => "undefined"
  | VNull => "null"
  | VBool true => "true"
  | VBool false => "false"
  | VNum n => pretty n
  | VStr s => s
  | VArr items =>
      String.concat ","
        (map (fun x => match x with
                       | VUndefined | VNull => ""
                       | _ => String_ x
                       end) items)
  | VObj => "[object Object]"
  end.

(** No object at any depth: a primitive, a missing key, or an array of
    such values.  The conversion of these to text cannot fail, whatever
    keys an object could have held. *)
Fixpoint object_free (v : value) : bool :=
  match v with
  | VArr items => forallb object_free items
  | VObj => false
  | _ => true
  end.

(** The options [buildQueryParams] turns into text, by [toString()] or
    by [URLSearchParams.append]. *)
Definition query_keys : list string :=
  ["top"; "skip"; "count"; "expand"; "orderby"; "filter"].

(** The options some handler turns into text: the six above, [id] in the
    path of an endpoint, and the values the filter composer interpolates. *)
Definition converted_keys : list string :=
  ["id"; "top"; "skip"; "count"; "expand"; "orderby"; "filter";
   "user_id"; "project_id"; "customer_id"; "from_date"; "to_date"].

(** ** Filter Composer *)

Definition buildFilterExpression (args : bag) : value :=
  let active_only := prop args "active_only" in
  let user_id := prop args "user_id" in
  let project_id := prop args "project_id" in
  let customer_id := prop args "customer_id" in
  let from_date := prop args "from_date" in
  let to_date := prop args "to_date" in
  let filter := prop args "filter" in
  let filterExpression := VStr "" in
  (* Add active filter *)
  let filterExpression :=
    if truthy active_only then VStr "active eq true" else filterExpression in
  (* Add user_id filter *)
  let filterExpression :=
    if truthy user_id then
      let userFilter := "user/id eq " +:+ String_ user_id in
      if truthy filterExpression
      then VStr (String_ filterExpression +:+ " and " +:+ userFilter)
      else VStr userFilter
    else filterExpression in
  (* Add project_id filter *)
  let filterExpression :=
    if truthy project_id then
      let projectFilter := "project/id eq " +:+ String_ project_id in
      if truthy filterExpression
      then VStr (String_ filterExpression +:+ " and " +:+ projectFilter)
      else VStr projectFilter
    else filterExpression in
  (* Add customer_id filter *)
  let filterExpression :=
    if truthy customer_id then
      let customerFilter := "customer/id eq " +:+ String_ customer_id in
      if truthy filterExpression
      then VStr (String_ filterExpression +:+ " and " +:+ customerFilter)
      else VStr customerFilter
    else filterExpression in
  (* Add date range filters *)
  let filterExpression :=
    if truthy from_date then
      let dateFilter := "date ge " +:+ String_ from_date in
      if truthy filterExpression
      then VStr (String_ filterExpression +:+ " and " +:+ dateFilter)
      else VStr dateFilter
    else filterExpression in
  let filterExpression :=
    if truthy to_date then
      let dateFilter := "date le " +:+ String_ to_date in
      if truthy filterExpression
      then VStr (String_ filterExpression +:+ " and " +:+ dateFilter)
      else VStr dateFilter
    else filterExpression in
  (* Add custom filter *)
  let filterExpression :=
    if truthy filter then
      if truthy filterExpression
      then VStr (String_ filterExpression +:+ " and " +:+ String_ filter)
      else filter
    else filterExpression in
  filterExpression.

(** The seven filter sources in the fixed order of the data model, each
    with the fragment it renders: the specification's reading of the
    composer, against which [buildFilterExpression] is compared. *)
Definition filter_sources (args : bag) : list (value * string) :=
  [ (prop args "active_only", "active eq true");
    (prop args "user_id", "user/id eq " +:+ String_ (prop args "user_id"));
    (prop args "project_id", "project/id eq " +:+ String_ (prop args "project_id"));
    (prop args "customer_id", "customer/id eq " +:+ String_ (prop args "customer_id"));
    (prop args "from_date", "date ge " +:+ String_ (prop args "from_date"));
    (prop args "to_date", "date le " +:+ String_ (prop args "to_date"));
    (prop args "filter", String_ (prop args "filter")) ].

(** The fragments of the sources that are present, in source order. *)
Definition present_fragments (args : bag) : list string :=
  map snd (List.filter (fun p => truthy (fst p)) (filter_sources args)).

(** N: how many of the seven sources are present. *)
Definition present_count (args : bag) : nat :=
  List.length
    (List.filter truthy
       (map (prop args)
          ["active_only"; "user_id"; "project_id"; "customer_id";
           "from_date"; "to_date"; "filter"])).

Definition total_length (l : list string) : nat :=
  foldr (fun s n => (String.length s + n)%nat) 0%nat l.

Definition bag_of (l : list (string * value)) : bag := list_to_map l.

(** ** Exceptions

    The handlers tell an [McpError] (the SDK's class) from every other
    exception with [instanceof].  The error codes are those the server
    uses. *)
Inductive ErrorCode : Type := InvalidRequest | MethodNotFound | InternalError.

Inductive exn : Type :=
  | McpError (code : ErrorCode) (message : string)
  | JsError (message : string).

(** How a call ends: it returns or it throws. *)
Inductive outcome (A : Type) : Type :=
  | Returned (a : A)
  | Thrown (e : exn).
Arguments Returned {A} a.
Arguments Thrown {A} e.

Global Instance outcome_ret : MRet outcome := λ A a, Returned a.

Global Instance outcome_bind : MBind outcome := λ A B k m,
  match m with
  | Returned a => k a
  | Thrown e => Thrown e
  end.

(** The method call [v.toString()]: there is no such property on [null]
    and [undefined], and reading it throws a [TypeError].  On a plain
    object the method inherited from [Object.prototype] answers. *)
Definition toString (v : value) : outcome string :=
  match v with
  | VUndefined => Thrown (JsError "Cannot read properties of undefined (reading 'toString')")
  | VNull => Thrown (JsError "Cannot read properties of null (reading 'toString')")
  | _ => Returned (String_ v)
  end.

(** ** URLSearchParams

    An ordered list of name/value pairs of strings. *)
Abbreviation URLSearchParams := (list (string * string)).

Definition params_append (params : URLSearchParams) (name value : string) : URLSearchParams :=
  params ++ [(name, value)].

Definition has_name (name : string) (p : string * string) : bool :=
  bool_decide (p.1 = name).

(** [set]: the first pair of that name takes the value and the others
    of that name go; with no such pair, the pair is appended. *)
Fixpoint params_set (params : URLSearchParams) (name value : string) : URLSearchParams :=
  match params with
  | [] => [(name, value)]
  | p :: rest =>
      if has_name name p
      then (name, value) :: List.filter (fun q => negb (has_name name q)) rest
      else p :: params_set rest name value
  end.

(** [getAll]. *)
Definition params_getAll (params : URLSearchParams) (name : string) : list string :=
  map snd (List.filter (has_name name) params).

Definition hex_digit (n : N) : ascii :=
  ascii_of_N (if (n <? 10)%N then 48 + n else 55 + n).

(** The application/x-www-form-urlencoded byte serialiser, on the UTF-8
    bytes of the text. *)
Definition urlencode_byte (c : ascii) : string :=
  let n := N_of_ascii c in
  if (n =? 32)%N then "+"
  else if ((n =? 42) || (n =? 45) || (n =? 46) || (n =? 95)
           || ((48 <=? n) && (n <=? 57))
           || ((65 <=? n) && (n <=? 90))
           || ((97 <=? n) && (n <=? 122)))%N
  then String c ""
  else String "%" (String (hex_digit (n / 16)) (String (hex_digit (n mod 16)) "")).

Fixpoint urlencode (s : string) : string :=
  match s with
  | EmptyString => ""
  | String c rest => urlencode_byte c +:+ urlencode rest
  end.

(** [toString]. *)
Definition params_toString (params : URLSearchParams) : string :=
  String.concat "&" (map (fun p => urlencode p.1 +:+ "=" +:+ urlencode p.2) params).

(** ** Query Parameter Builder *)

Definition is_undefined (v : value) : bool :=
  match v with VUndefined => true | _ => false end.

Definition buildQueryParams (args : bag) : outcome URLSearchParams :=
  let top := prop args "top" in
  let skip := prop args "skip" in
  let count := prop args "count" in
  let expand := prop args "expand" in
  let filter := prop args "filter" in
  let orderby := prop args "orderby" in
  let params : URLSearchParams := [] in
  (* Pagination parameters *)
  params ← (if truthy top
            then s ← toString top; mret (params_append params "$top" s)
            else mret params);
  params ← (if truthy skip
            then s ← toString skip; mret (params_append params "$skip" s)
            else mret params);
  params ← (if negb (is_undefined count)
            then s ← toString count; mret (params_append params "$count" s)
            else mret params);
  (* Expansion *)
  let params := if truthy expand
                then params_append params "$expand" (String_ expand) else params in
  (* Ordering *)
  let params := if truthy orderby
                then params_append params "$orderby" (String_ orderby) else params in
  (* Filtering *)
  let params := if truthy filter
                then params_append params "$filter" (String_ filter) else params in
  mret params.

(** ** Requests, responses and the request log *)

(** The [options] argument of [makeRequest]; [{}] by default. *)
Record RequestInit : Type := {
  method : option string;
  body : option string;
  headers : option (gmap string string)
}.

Definition no_options : RequestInit :=
  {| method := None; body := None; headers := None |}.

(** What [fetch] is handed: the URL and [{ ...options, headers }]. *)
Record request : Type := {
  req_url : string;
  req_method : option string;
  req_body : option string;
  req_headers : gmap string string
}.

(** An HTTP response: the status line and the text of the body. *)
Record Response : Type := {
  status : Z;
  statusText : string;
  response_text : string
}.

(** [response.ok]: the status is in the range 200 to 299. *)
Definition response_ok (r : Response) : bool :=
  (200 <=? status r) && (status r <=? 299).

(** The result envelope returned to the protocol layer:
    [{ content: [{ type: 'text', text }], isError }]. *)
Record envelope : Type := {
  text : string;
  isError : bool
}.

Definition baseUrl : string := "https://v2.api.timechimp.com".

(** A computation of the server: it is given the log of the requests
    handed to [fetch] so far, and ends by returning or throwing, with the
    log it leaves. *)
Definition M (A : Type) : Type := list request → outcome A * list request.

Global Instance M_ret : MRet M := λ A a log, (Returned a, log).

Global Instance M_bind : MBind M := λ A B k m log,
  match m log with
  | (Returned a, log') => k a log'
  | (Thrown e, log') => (Thrown e, log')
  end.

Definition throw {A : Type} (e : exn) : M A := λ log, (Thrown e, log).

Definition lift {A : Type} (o : outcome A) : M A := λ log, (o, log).

(** [try { m } catch (error) { handler }]. *)
Definition try_catch {A : Type} (m : M A) (handler : exn → M A) : M A := λ log,
  match m log with
  | (Returned a, log') => (Returned a, log')
  | (Thrown e, log') => handler e log'
  end.

Definition is_McpError (e : exn) : bool :=
  match e with McpError _ _ => true | JsError _ => false end.

(** An object literal [{ k1, k2, ... }] read off the bag. *)
Definition pick (args : bag) (names : list string) : list (string * value) :=
  map (fun k => (k, prop args k)) names.

(** [...(v && { k })]. *)
Definition spread_if_truthy (args : bag) (k : string) : list (string * value) :=
  if truthy (prop args k) then [(k, prop args k)] else [].

(** [...(v !== undefined && { k })]. *)
Definition spread_if_defined (args : bag) (k : string) : list (string * value) :=
  if is_undefined (prop args k) then [] else [(k, prop args k)].

(** The first case of a [switch] that matches. *)
Fixpoint switch {A : Type} (name : string) (cases : list (string * A)) : option A :=
  match cases with
  | [] => None
  | (k, a) :: rest => if bool_decide (name = k) then Some a else switch name rest
  end.

(** *** The composer, block by block *)

(** One [if (source) { ... }] block of the composer. *)
Definition add_fragment (source : value) (fragment : string) (acc : value) : value :=
  if truthy source then
    if truthy acc
    then VStr (String_ acc +:+ " and " +:+ fragment)
    else VStr fragment
  else acc.

(** The last block, which passes the raw filter through as it is. *)
Definition add_raw_filter (filter : value) (acc : value) : value :=
  if truthy filter then
    if truthy acc
    then VStr (String_ acc +:+ " and " +:+ String_ filter)
    else filter
  else acc.

(** What the accumulator holds after some blocks: the fragments so far,
    joined; it is a non-empty string as soon as there is a fragment. *)
Definition joined (acc : value) (l : list string) : Prop :=
  acc = VStr (String.concat " and " l) ∧ (l ≠ [] → truthy acc = true).

Definition opt_fragment (source : value) (fragment : string) : list string :=
  if truthy source then [fragment] else [].

(** ** Counting a text inside another

    The number of positions of [s] at which [pat] starts. *)
Fixpoint occurrences (pat s : string) : nat :=
  ((if String.prefix pat s then 1 else 0)
   + match s with
     | EmptyString => 0
     | String _ rest => occurrences pat rest
     end)%nat.

(** A text in which the word [and] does not occur. *)
Definition and_free (s : string) : Prop := occurrences "and" s = 0%nat.

(** A text that is empty or starts with a space. *)
Definition spaced (s : string) : Prop := s = "" ∨ ∃ t, s = String " " t.

(** The six sources whose value is copied into the composed filter. *)
Definition value_sources : list string :=
  ["user_id"; "project_id"; "customer_id"; "from_date"; "to_date"; "filter"].

(** ** The builder as the specification reads it

    One pair per option that is to be emitted, in the order top, skip,
    count, expand, orderby, filter. *)
Definition emit (present : bool) (name : string) (v : value) : URLSearchParams :=
  if present then [(name, String_ v)] else [].

Definition query_spec (args : bag) : URLSearchParams :=
  emit (truthy (prop args "top")) "$top" (prop args "top")
  ++ emit (truthy (prop args "skip")) "$skip" (prop args "skip")
  ++ emit (negb (is_undefined (prop args "count"))) "$count" (prop args "count")
  ++ emit (truthy (prop args "expand")) "$expand" (prop args "expand")
  ++ emit (truthy (prop args "orderby")) "$orderby" (prop args "orderby")
  ++ emit (truthy (prop args "filter")) "$filter" (prop args "filter").

(** The names the builder can emit, in the order it emits them. *)
Definition query_names : list string :=
  ["$top"; "$skip"; "$count"; "$expand"; "$orderby"; "$filter"].

(** The fragments of the first six sources that are present. *)
Definition leading_fragments (args : bag) : list string :=
  (((((([] ++ opt_fragment (prop args "active_only") "active eq true")
    ++ opt_fragment (prop args "user_id") ("user/id eq " +:+ String_ (prop args "user_id")))
    ++ opt_fragment (prop args "project_id")
         ("project/id eq " +:+ String_ (prop args "project_id")))
    ++ opt_fragment (prop args "customer_id")
         ("customer/id eq " +:+ String_ (prop args "customer_id")))
    ++ opt_fragment (prop args "from_date") ("date ge " +:+ String_ (prop args "from_date")))
    ++ opt_fragment (prop args "to_date") ("date le " +:+ String_ (prop args "to_date"))).

(** The parameters of a status-history request, in the order its
    handler appends them. *)
Definition history_spec (args : bag) : URLSearchParams :=
  emit (truthy (prop args "top")) "$top" (prop args "top")
  ++ emit (truthy (prop args "skip")) "$skip" (prop args "skip")
  ++ emit (negb (is_undefined (prop args "count"))) "$count" (prop args "count")
  ++ emit (truthy (prop args "expand")) "$expand" (prop args "expand")
  ++ emit (truthy (prop args "filter")) "$filter" (prop args "filter")
  ++ emit (truthy (prop args "orderby")) "$orderby" (prop args "orderby").


Definition null_toString : exn :=
  JsError "Cannot read properties of null (reading 'toString')".

(** The value of a hexadecimal digit. *)
Definition hex_value (c : ascii) : N :=
  let n := N_of_ascii c in
  if ((48 <=? n) && (n <=? 57))%N then (n - 48)%N
  else if ((65 <=? n) && (n <=? 70))%N then (n - 55)%N
  else if ((97 <=? n) && (n <=? 102))%N then (n - 87)%N
  else 0%N.

(** The decoding the receiving end applies to a name or a value of the
    query: a plus is a space and a percent sign introduces a byte. *)
Fixpoint urldecode (s : string) : string :=
  match s with
  | EmptyString => ""
  | String c rest =>
      if (c =? "+")%char then String " " (urldecode rest)
      else if (c =? "%")%char then
        match rest with
        | String h (String l rest') =>
            String (ascii_of_N (16 * hex_value h + hex_value l)) (urldecode rest')
        | _ => String c (urldecode rest)
        end
      else String c (urldecode rest)
  end.

(** One name/value pair of the serialised query. *)
Definition encode_pair (p : string * string) : string :=
  urlencode p.1 +:+ "=" +:+ urlencode p.2.

(** The pieces of a text between the occurrences of a separator. *)
Fixpoint split_all (sep : ascii) (s : string) : list string :=
  match s with
  | EmptyString => [""]
  | String c rest =>
      if (c =? sep)%char then "" :: split_all sep rest
      else match split_all sep rest with
           | piece :: pieces => String c piece :: pieces
           | [] => [String c ""]
           end
  end.

(** The text before the first separator and, when there is one, the
    text after it. *)
Fixpoint split_at (sep : ascii) (s : string) : string * option string :=
  match s with
  | EmptyString => ("", None)
  | String c rest =>
      if (c =? sep)%char then ("", Some rest)
      else let (before, after) := split_at sep rest in (String c before, after)
  end.

(** How the receiving end reads a query: the pieces between [&], the
    empty ones skipped, each cut at its first [=], both halves decoded. *)
Definition params_parse (query : string) : URLSearchParams :=
  map (fun piece =>
         let (name, value) := split_at "=" piece in
         (urldecode name, urldecode (default "" value)))
      (List.filter nonempty (split_all "&" query)).

(** ** A sample environment

    Concrete stand-ins for the platform, used to run the server on
    examples: parsed data kept as its text, a parser that refuses markup,
    a network that answers every request alike, and the SDK's message
    format. *)
Definition sample_parse (s : string) : string + string :=
  if String.prefix "<" s then inl "Unexpected token '<'" else inr s.

Definition sample_stringify (fields : list (string * value)) : string :=
  "{" +:+ String.concat "," (map (fun kv => kv.1 +:+ ":" +:+ String_ kv.2) fields) +:+ "}".

Definition answer (r : Response) : request → string + Response := λ _, inr r.

Definition unreachable (message : string) : request → string + Response :=
  λ _, inl message.

Definition code_number (code : ErrorCode) : Z :=
  match code with
  | InvalidRequest => -32600
  | MethodNotFound => -32601
  | InternalError => -32603
  end.

Definition sample_message (code : ErrorCode) (message : string) : string :=
  "MCP error " +:+ pretty (code_number code) +:+ ": " +:+ message.

Definition sample_indented (data : string) : string := data.

Definition sample_key : option string := Some "key-123".

Definition ok_response : Response :=
  {| status := 200; statusText := "OK"; response_text := "{}" |}.

Definition not_found : Response :=
  {| status := 404; statusText := "Not Found"; response_text := "no such project" |}.

Definition no_content : Response :=
  {| status := 204; statusText := "No Content"; response_text := "" |}.

(** The names of the operation catalog, in the order of the tool list. *)
Definition tool_names : list string :=
  [ "get_projects"; "get_project_by_id"; "create_project"; "update_project";
    "delete_project"; "get_project_insights";
    "get_users"; "get_user_by_id"; "create_user"; "update_user";
    "get_time_entries"; "get_time_entry_by_id";
    "get_contacts"; "get_contact_by_id"; "create_contact"; "update_contact";
    "delete_contact";
    "get_customers"; "get_customer_by_id"; "create_customer"; "update_customer";
    "delete_customer";
    "get_tasks"; "get_task_by_id"; "get_invoices"; "get_invoice_by_id";
    "get_expenses"; "get_expense_by_id"; "create_expense"; "update_expense";
    "delete_expense"; "update_expense_status"; "update_expense_client_status";
    "get_expense_status_history";
    "get_mileage"; "get_mileage_by_id"; "create_mileage"; "update_mileage";
    "delete_mileage"; "update_mileage_status"; "update_mileage_client_status";
    "get_mileage_status_history"; "get_mileage_vehicles";
    "get_mileage_vehicle_by_id"; "get_tags"; "get_tag_by_id" ].

(** The tool list that [ListTools] returns: for each tool its name, the
    names of the properties its [inputSchema] declares, and the
    [required] ones.  Every schema has [additionalProperties: false]. *)
Definition tools : list (string * list string * list string) :=
  [
    ("get_projects",
     ["top"; "skip"; "count"; "expand"; "active_only"; "filter";
      "orderby"],
     []);
    ("get_project_by_id",
     ["id"; "expand"],
     ["id"]);
    ("create_project",
     ["name"; "active"; "code"; "notes"; "color"; "startDate"; "endDate";
      "invoicing"; "budget"; "customer"; "mainProject"; "subprojects";
      "managers"; "tags"; "projectTasks"; "projectUsers"],
     ["name"; "projectTasks"; "projectUsers"]);
    ("update_project",
     ["id"; "name"; "active"; "code"; "notes"; "color"; "startDate";
      "endDate"; "invoicing"; "budget"; "customer"; "mainProject";
      "subprojects"; "managers"; "tags"; "projectTasks"; "projectUsers"],
     ["id"; "name"; "invoicing"; "budget"; "projectTasks"; "projectUsers"]);
    ("delete_project",
     ["id"],
     ["id"]);
    ("get_project_insights",
     ["id"],
     ["id"]);
    ("get_users",
     ["top"; "skip"; "count"; "expand"; "active_only"; "filter";
      "orderby"],
     []);
    ("get_user_by_id",
     ["id"; "expand"],
     ["id"]);
    ("create_user",
     ["userName"; "displayName"; "language"; "role"; "sendInvitation";
      "contracts"],
     ["userName"; "displayName"]);
    ("update_user",
     ["id"; "displayName"; "language"; "employeeNumber"; "badgeNumber";
      "citizenServiceNumber"; "role"; "tags"; "contracts"],
     ["id"; "displayName"]);
    ("get_time_entries",
     ["top"; "skip"; "count"; "expand"; "user_id"; "project_id";
      "from_date"; "to_date"; "filter"; "orderby"],
     []);
    ("get_time_entry_by_id",
     ["id"; "expand"],
     ["id"]);
    ("get_contacts",
     ["top"; "skip"; "count"; "expand"; "active_only"; "filter";
      "orderby"],
     []);
    ("get_contact_by_id",
     ["id"; "expand"],
     ["id"]);
    ("create_contact",
     ["name"; "jobTitle"; "email"; "phone"; "useForInvoicing"; "active";
      "customers"],
     ["name"]);
    ("update_contact",
     ["id"; "name"; "jobTitle"; "email"; "phone"; "useForInvoicing";
      "active"; "customers"],
     ["id"; "name"]);
    ("delete_contact",
     ["id"],
     ["id"]);
    ("get_customers",
     ["top"; "skip"; "count"; "expand"; "active_only"; "filter";
      "orderby"],
     []);
    ("get_customer_by_id",
     ["id"; "expand"],
     ["id"]);
    ("create_customer",
     ["name"; "active"; "relationId"; "address"; "phone"; "email";
      "website"; "paymentPeriod"; "hourlyRate"; "mileageRate"; "iban";
      "bic"; "vatNumber"; "kvkNumber"; "invoiceAddress"; "notes";
      "prospect"; "vatRate"; "tags"; "contacts"],
     ["name"]);
    ("update_customer",
     ["id"; "name"; "active"; "relationId"; "address"; "phone"; "email";
      "website"; "paymentPeriod"; "hourlyRate"; "mileageRate"; "iban";
      "bic"; "vatNumber"; "kvkNumber"; "invoiceAddress"; "notes";
      "prospect"; "vatRate"; "tags"; "contacts"],
     ["id"; "name"]);
    ("delete_customer",
     ["id"],
     ["id"]);
    ("get_tasks",
     ["top"; "skip"; "count"; "expand"; "active_only"; "project_id";
      "filter"; "orderby"],
     []);
    ("get_task_by_id",
     ["id"; "expand"],
     ["id"]);
    ("get_invoices",
     ["top"; "skip"; "count"; "expand"; "customer_id"; "from_date";
      "to_date"; "filter"; "orderby"],
     []);
    ("get_invoice_by_id",
     ["id"; "expand"],
     ["id"]);
    ("get_expenses",
     ["top"; "skip"; "count"; "expand"; "user_id"; "project_id";
      "customer_id"; "from_date"; "to_date"; "filter"; "orderby"],
     []);
    ("get_expense_by_id",
     ["id"; "expand"],
     ["id"]);
    ("create_expense",
     ["date"; "notes"; "quantity"; "rate"; "billable"; "customer";
      "project"; "product"; "user"; "vatRate"],
     ["rate"; "user"]);
    ("update_expense",
     ["id"; "date"; "notes"; "quantity"; "rate"; "billable"; "customer";
      "project"; "product"; "user"; "vatRate"],
     ["id"; "rate"; "user"]);
    ("delete_expense",
     ["id"],
     ["id"]);
    ("update_expense_status",
     ["message"; "expenses"; "status"],
     ["expenses"; "status"]);
    ("update_expense_client_status",
     ["clientStatus"; "message"; "expenses"],
     ["clientStatus"; "expenses"]);
    ("get_expense_status_history",
     ["id"; "top"; "skip"; "count"; "expand"; "filter"; "orderby"],
     ["id"]);
    ("get_mileage",
     ["top"; "skip"; "count"; "expand"; "user_id"; "project_id";
      "customer_id"; "from_date"; "to_date"; "filter"; "orderby"],
     []);
    ("get_mileage_by_id",
     ["id"; "expand"],
     ["id"]);
    ("create_mileage",
     ["date"; "fromAddress"; "toAddress"; "notes"; "distance"; "billable";
      "type"; "customer"; "project"; "vehicle"; "user"],
     ["distance"; "type"; "user"]);
    ("update_mileage",
     ["id"; "date"; "fromAddress"; "toAddress"; "notes"; "distance";
      "billable"; "type"; "customer"; "project"; "vehicle"; "user"],
     ["id"; "distance"; "type"; "user"]);
    ("delete_mileage",
     ["id"],
     ["id"]);
    ("update_mileage_status",
     ["message"; "mileages"; "status"],
     ["mileages"; "status"]);
    ("update_mileage_client_status",
     ["clientStatus"; "message"; "mileages"],
     ["clientStatus"; "mileages"]);
    ("get_mileage_status_history",
     ["id"; "top"; "skip"; "count"; "expand"; "filter"; "orderby"],
     ["id"]);
    ("get_mileage_vehicles",
     ["top"; "skip"; "count"; "expand"; "active_only"; "filter";
      "orderby"],
     []);
    ("get_mileage_vehicle_by_id",
     ["id"; "expand"],
     ["id"]);
    ("get_tags",
     ["top"; "skip"; "count"; "expand"; "active_only"; "filter";
      "orderby"],
     []);
    ("get_tag_by_id",
     ["id"; "expand"],
     ["id"]) ].

(** The list operations with their base paths. *)
Definition list_operations : list (string * string) :=
  [ ("get_projects", "/projects"); ("get_users", "/users");
    ("get_time_entries", "/times"); ("get_contacts", "/contacts");
    ("get_customers", "/customers"); ("get_tasks", "/tasks");
    ("get_invoices", "/invoices"); ("get_expenses", "/expenses");
    ("get_mileage", "/mileage"); ("get_mileage_vehicles", "/mileageVehicles");
    ("get_tags", "/tags") ].

(** The get-by-id operations with their base paths. *)
Definition by_id_operations : list (string * string) :=
  [ ("get_project_by_id", "/projects"); ("get_user_by_id", "/users");
    ("get_time_entry_by_id", "/times"); ("get_contact_by_id", "/contacts");
    ("get_customer_by_id", "/customers"); ("get_task_by_id", "/tasks");
    ("get_invoice_by_id", "/invoices"); ("get_expense_by_id", "/expenses");
    ("get_mileage_by_id", "/mileage");
    ("get_mileage_vehicle_by_id", "/mileageVehicles");
    ("get_tag_by_id", "/tags") ].

(** The delete operations: base path, label of the confirmation, and
    prefix of the failure text. *)
Definition delete_operations : list (string * (string * string * string)) :=
  [ ("delete_project", ("/projects", "Project", "Error deleting project"));
    ("delete_contact", ("/contacts", "Contact", "Error deleting contact"));
    ("delete_customer", ("/customers", "Customer", "Error deleting customer"));
    ("delete_expense", ("/expenses", "Expense", "Error deleting expense"));
    ("delete_mileage", ("/mileage", "Mileage", "Error deleting mileage")) ].

(** ** The server *)

Section Server.

(** [process.env.TIMECHIMP_API_KEY], read once by the constructor. *)
Variable apiKey : option string.

(** The network: [fetch] rejects with an error of some message, or
    resolves with a response. *)
Variable fetch : request → string + Response.

(** Parsed JSON data, the parser behind [response.json()], and the two
    uses of [JSON.stringify]. *)
Variable json : Type.
Variable JSON_parse : string → string + json.
Variable JSON_stringify_indented : json → string.
Variable JSON_stringify : list (string * value) → string.

(** The text the SDK's [McpError] constructor stores in [.message]. *)
Variable McpError_message : ErrorCode → string → string.

Definition error_message (error : exn) : string :=
  match error with
  | McpError code message => McpError_message code message
  | JsError message => message
  end.

Definition has_apiKey : bool :=
  match apiKey with
  | Some key => nonempty key
  | None => false
  end.

(** [await fetch(url, init)], which also enters the request in the log. *)
Definition call_fetch (req : request) : M Response := λ log,
  (match fetch req with
   | inl message => Thrown (JsError message)
   | inr response => Returned response
   end, log ++ [req]).

(** [await response.json()]: an empty text is not JSON. *)
Definition response_json (r : Response) : outcome json :=
  match response_text r with
  | EmptyString => Thrown (JsError "Unexpected end of JSON input")
  | _ =>
      match JSON_parse (response_text r) with
      | inl message => Thrown (JsError message)
      | inr data => Returned data
      end
  end.

(** The fixed header set. *)
Definition fixed_headers : gmap string string :=
  <["api-key" := default "" apiKey]>
  (<["Content-Type" := "application/json"]>
  (<["Accept" := "application/json"]>
  (<["api-version" := "2.0"]> ∅))).

(** [{ ...fixed, ...options.headers }]: a later key replaces an earlier one. *)
Definition merged_headers (options : RequestInit) : gmap string string :=
  default ∅ (headers options) ∪ fixed_headers.

(** Make an authenticated request to the TimeChimp API. *)
Definition makeRequest (endpoint : string) (options : RequestInit) : M json :=
  if negb has_apiKey then
    throw (McpError InvalidRequest "TIMECHIMP_API_KEY environment variable is required")
  else
    let url := baseUrl +:+ endpoint in
    let headers := merged_headers options in
    try_catch
      (response ← call_fetch {| req_url := url; req_method := method options;
                                req_body := body options; req_headers := headers |};
       if negb (response_ok response) then
         let errorText := response_text response in
         throw (McpError InternalError
                  ("TimeChimp API error: " +:+ pretty (status response) +:+ " "
                   +:+ statusText response +:+ " - " +:+ errorText))
       else
         data ← lift (response_json response);
         mret data)
      (λ error,
         if is_McpError error then throw error
         else throw (McpError InternalError ("Request failed: " +:+ error_message error))).

Definition success (data : json) : envelope :=
  {| text := JSON_stringify_indented data; isError := false |}.

Definition failure (what : string) (error : exn) : envelope :=
  {| text := what +:+ ": " +:+ error_message error; isError := true |}.

(** The query parameters [handleGetRequest] ends with. *)
Definition list_params (args : bag) (defaultOrderBy : value) : outcome URLSearchParams :=
  params ← buildQueryParams args;
  let filterExpression := buildFilterExpression args in
  (* Add default ordering if no custom orderby is provided *)
  let params :=
    if truthy defaultOrderBy && negb (truthy (prop args "orderby"))
    then params_append params "$orderby" (String_ defaultOrderBy)
    else params in
  let params :=
    if truthy filterExpression
    then params_set params "$filter" (String_ filterExpression)
    else params in
  mret params.

Definition with_query (path : string) (params : URLSearchParams) : string :=
  path +:+ (if nonempty (params_toString params)
            then "?" +:+ params_toString params else "").

(** Generic method to handle GET requests. *)
Definition handleGetRequest (endpoint : string) (args : bag) (defaultOrderBy : value)
    : M envelope :=
  params ← lift (list_params args defaultOrderBy);
  let fullEndpoint := with_query endpoint params in
  try_catch
    (data ← makeRequest fullEndpoint no_options; mret (success data))
    (λ error, mret (failure ("Error retrieving data from " +:+ endpoint) error)).

(** Generic method to handle GET by ID requests. *)
Definition handleGetByIdRequest (endpoint : string) (id expand : value) : M envelope :=
  let params : URLSearchParams := [] in
  let params := if truthy expand
                then params_append params "$expand" (String_ expand) else params in
  let fullEndpoint := with_query (endpoint +:+ "/" +:+ String_ id) params in
  try_catch
    (data ← makeRequest fullEndpoint no_options; mret (success data))
    (λ error, mret (failure ("Error retrieving data from " +:+ endpoint +:+ "/"
                             +:+ String_ id) error)).

(** The shape shared by the list handlers ([getProjects], [getUsers], ...):
    no default order is passed. *)
Definition list_handler (endpoint : string) (args : option bag) : M envelope :=
  let args := default ∅ args in
  handleGetRequest endpoint args VNull.

(** The shape shared by the get-by-id handlers ([getProjectById], ...). *)
Definition by_id_handler (endpoint : string) (args : option bag) : M envelope :=
  let args := default ∅ args in
  let id := prop args "id" in
  let expand := prop args "expand" in
  handleGetByIdRequest endpoint id expand.

(** The shape shared by the create, update and status handlers: one
    request with a JSON body, the parsed answer passed on. *)
Definition send_body (verb endpoint : string) (data : list (string * value))
    (what : string) : M envelope :=
  try_catch
    (data ← makeRequest endpoint
              {| method := Some verb; body := Some (JSON_stringify data);
                 headers := None |};
     mret (success data))
    (λ error, mret (failure what error)).

(** The shape shared by the delete handlers ([deleteProject], ...). *)
Definition delete_handler (endpoint label what : string) (args : option bag)
    : M envelope :=
  let args := default ∅ args in
  let id := prop args "id" in
  try_catch
    (_ ← makeRequest (endpoint +:+ "/" +:+ String_ id)
           {| method := Some "DELETE"; body := None; headers := None |};
     mret {| text := label +:+ " " +:+ String_ id +:+ " deleted successfully";
             isError := false |})
    (λ error, mret (failure what error)).

(** The shape shared by the two status-history handlers, which build
    their parameters themselves. *)
Definition history_handler (endpoint what : string) (args : option bag) : M envelope :=
  let args := default ∅ args in
  let id := prop args "id" in
  let top := prop args "top" in
  let skip := prop args "skip" in
  let count := prop args "count" in
  let expand := prop args "expand" in
  let filter := prop args "filter" in
  let orderby := prop args "orderby" in
  let params : URLSearchParams := [] in
  params ← lift (if truthy top
                 then s ← toString top; mret (params_append params "$top" s)
                 else mret params);
  params ← lift (if truthy skip
                 then s ← toString skip; mret (params_append params "$skip" s)
                 else mret params);
  params ← lift (if negb (is_undefined count)
                 then s ← toString count; mret (params_append params "$count" s)
                 else mret params);
  let params := if truthy expand
                then params_append params "$expand" (String_ expand) else params in
  let params := if truthy filter
                then params_append params "$filter" (String_ filter) else params in
  let params := if truthy orderby
                then params_append params "$orderby" (String_ orderby) else params in
  let fullEndpoint :=
    with_query (endpoint +:+ "/" +:+ String_ id +:+ "/statusHistory") params in
  try_catch
    (data ← makeRequest fullEndpoint no_options; mret (success data))
    (λ error, mret (failure what error)).

(** *** Projects *)
Definition project_fields : list string :=
  ["name"; "active"; "code"; "notes"; "color"; "startDate"; "endDate";
   "invoicing"; "budget"; "customer"; "mainProject"; "subprojects";
   "managers"; "tags"; "projectTasks"; "projectUsers"].

Definition getProjects := list_handler "/projects".
Definition getProjectById := by_id_handler "/projects".
Definition createProject (args : option bag) : M envelope :=
  let args := default ∅ args in
  send_body "POST" "/projects" (pick args project_fields) "Error creating project".
Definition updateProject (args : option bag) : M envelope :=
  let args := default ∅ args in
  send_body "PUT" ("/projects/" +:+ String_ (prop args "id"))
    (pick args project_fields) "Error updating project".
Definition deleteProject :=
  delete_handler "/projects" "Project" "Error deleting project".
Definition getProjectInsights (args : option bag) : M envelope :=
  let args := default ∅ args in
  let id := prop args "id" in
  try_catch
    (data ← makeRequest ("/projects/" +:+ String_ id +:+ "/insights") no_options;
     mret (success data))
    (λ error, mret (failure "Error retrieving project insights" error)).

(** *** Users *)
Definition getUsers := list_handler "/users".
Definition getUserById := by_id_handler "/users".
Definition createUser (args : option bag) : M envelope :=
  let args := default ∅ args in
  send_body "POST" "/users"
    (pick args ["userName"; "displayName"; "language"; "role"; "sendInvitation";
                "contracts"])
    "Error creating user".
Definition updateUser (args : option bag) : M envelope :=
  let args := default ∅ args in
  send_body "PUT" ("/users/" +:+ String_ (prop args "id"))
    (pick args ["displayName"; "language"; "employeeNumber"; "badgeNumber";
                "citizenServiceNumber"; "role"; "tags"; "contracts"])
    "Error updating user".

(** *** Time entries *)
Definition getTimeEntries := list_handler "/times".
Definition getTimeEntryById := by_id_handler "/times".

(** *** Contacts *)
Definition getContacts := list_handler "/contacts".
Definition getContactById := by_id_handler "/contacts".
Definition createContact (args : option bag) : M envelope :=
  let args := default ∅ args in
  send_body "POST" "/contacts"
    (pick args ["name"]
     ++ spread_if_truthy args "jobTitle"
     ++ spread_if_truthy args "email"
     ++ spread_if_truthy args "phone"
     ++ spread_if_defined args "useForInvoicing"
     ++ spread_if_defined args "active"
     ++ spread_if_truthy args "customers")
    "Error creating contact".
Definition updateContact (args : option bag) : M envelope :=
  let args := default ∅ args in
  send_body "PUT" ("/contacts/" +:+ String_ (prop args "id"))
    (pick args ["name"]
     ++ spread_if_defined args "jobTitle"
     ++ spread_if_defined args "email"
     ++ spread_if_defined args "phone"
     ++ spread_if_defined args "useForInvoicing"
     ++ spread_if_defined args "active"
     ++ spread_if_defined args "customers")
    "Error updating contact".
Definition deleteContact :=
  delete_handler "/contacts" "Contact" "Error deleting contact".

(** *** Customers *)
Definition customer_fields : list string :=
  ["name"; "active"; "relationId"; "address"; "phone"; "email"; "website";
   "paymentPeriod"; "hourlyRate"; "mileageRate"; "iban"; "bic"; "vatNumber";
   "kvkNumber"; "invoiceAddress"; "notes"; "prospect"; "vatRate"; "tags";
   "contacts"].

Definition getCustomers := list_handler "/customers".
Definition getCustomerById := by_id_handler "/customers".
Definition createCustomer (args : option bag) : M envelope :=
  let args := default ∅ args in
  send_body "POST" "/customers" (pick args customer_fields) "Error creating customer".
Definition updateCustomer (args : option bag) : M envelope :=
  let args := default ∅ args in
  send_body "PUT" ("/customers/" +:+ String_ (prop args "id"))
    (pick args customer_fields) "Error updating customer".
Definition deleteCustomer :=
  delete_handler "/customers" "Customer" "Error deleting customer".

(** *** Tasks, invoices *)
Definition getTasks := list_handler "/tasks".
Definition getTaskById := by_id_handler "/tasks".
Definition getInvoices := list_handler "/invoices".
Definition getInvoiceById := by_id_handler "/invoices".

(** *** Expenses *)
Definition expense_fields : list string :=
  ["date"; "notes"; "quantity"; "rate"; "billable"; "customer"; "project";
   "product"; "user"; "vatRate"].

Definition getExpenses := list_handler "/expenses".
Definition getExpenseById := by_id_handler "/expenses".
Definition createExpense (args : option bag) : M envelope :=
  let args := default ∅ args in
  send_body "POST" "/expenses" (pick args expense_fields) "Error creating expense".
Definition updateExpense (args : option bag) : M envelope :=
  let args := default ∅ args in
  send_body "PUT" ("/expenses/" +:+ String_ (prop args "id"))
    (pick args expense_fields) "Error updating expense".
Definition deleteExpense :=
  delete_handler "/expenses" "Expense" "Error deleting expense".
Definition updateExpenseStatus (args : option bag) : M envelope :=
  let args := default ∅ args in
  send_body "PUT" "/expenses/status" (pick args ["message"; "expenses"; "status"])
    "Error updating expense status".
Definition updateExpenseClientStatus (args : option bag) : M envelope :=
  let args := default ∅ args in
  send_body "PUT" "/expenses/clientStatus"
    (pick args ["clientStatus"; "message"; "expenses"])
    "Error updating expense client status".
Definition getExpenseStatusHistory :=
  history_handler "/expenses" "Error retrieving expense status history".

(** *** Mileage *)
Definition mileage_fields : list string :=
  ["date"; "fromAddress"; "toAddress"; "notes"; "distance"; "billable"; "type";
   "customer"; "project"; "vehicle"; "user"].

Definition getMileage := list_handler "/mileage".
Definition getMileageById := by_id_handler "/mileage".
Definition createMileage (args : option bag) : M envelope :=
  let args := default ∅ args in
  send_body "POST" "/mileage" (pick args mileage_fields) "Error creating mileage".
Definition updateMileage (args : option bag) : M envelope :=
  let args := default ∅ args in
  send_body "PUT" ("/mileage/" +:+ String_ (prop args "id"))
    (pick args mileage_fields) "Error updating mileage".
Definition deleteMileage :=
  delete_handler "/mileage" "Mileage" "Error deleting mileage".
Definition updateMileageStatus (args : option bag) : M envelope :=
  let args := default ∅ args in
  send_body "PUT" "/mileage/status" (pick args ["message"; "mileages"; "status"])
    "Error updating mileage status".
Definition updateMileageClientStatus (args : option bag) : M envelope :=
  let args := default ∅ args in
  send_body "PUT" "/mileage/clientStatus"
    (pick args ["clientStatus"; "message"; "mileages"])
    "Error updating mileage client status".
Definition getMileageStatusHistory :=
  history_handler "/mileage" "Error retrieving mileage status history".
Definition getMileageVehicles := list_handler "/mileageVehicles".
Definition getMileageVehicleById := by_id_handler "/mileageVehicles".

(** *** Tags *)
Definition getTags := list_handler "/tags".
Definition getTagById := by_id_handler "/tags".

(** The cases of the [switch (name)] of the [CallTool] handler. *)
Definition tool_cases : list (string * (option bag → M envelope)) :=
  [ ("get_projects", getProjects);
    ("get_project_by_id", getProjectById);
    ("create_project", createProject);
    ("update_project", updateProject);
    ("delete_project", deleteProject);
    ("get_project_insights", getProjectInsights);
    ("get_users", getUsers);
    ("get_user_by_id", getUserById);
    ("create_user", createUser);
    ("update_user", updateUser);
    ("get_time_entries", getTimeEntries);
    ("get_time_entry_by_id", getTimeEntryById);
    ("get_contacts", getContacts);
    ("get_contact_by_id", getContactById);
    ("create_contact", createContact);
    ("update_contact", updateContact);
    ("delete_contact", deleteContact);
    ("get_customers", getCustomers);
    ("get_customer_by_id", getCustomerById);
    ("create_customer", createCustomer);
    ("update_customer", updateCustomer);
    ("delete_customer", deleteCustomer);
    ("get_tasks", getTasks);
    ("get_task_by_id", getTaskById);
    ("get_invoices", getInvoices);
    ("get_invoice_by_id", getInvoiceById);
    ("get_expenses", getExpenses);
    ("get_expense_by_id", getExpenseById);
    ("create_expense", createExpense);
    ("update_expense", updateExpense);
    ("delete_expense", deleteExpense);
    ("update_expense_status", updateExpenseStatus);
    ("update_expense_client_status", updateExpenseClientStatus);
    ("get_expense_status_history", getExpenseStatusHistory);
    ("get_mileage", getMileage);
    ("get_mileage_by_id", getMileageById);
    ("create_mileage", createMileage);
    ("update_mileage", updateMileage);
    ("delete_mileage", deleteMileage);
    ("update_mileage_status", updateMileageStatus);
    ("update_mileage_client_status", updateMileageClientStatus);
    ("get_mileage_status_history", getMileageStatusHistory);
    ("get_mileage_vehicles", getMileageVehicles);
    ("get_mileage_vehicle_by_id", getMileageVehicleById);
    ("get_tags", getTags);
    ("get_tag_by_id", getTagById) ].

(** The handler of [CallToolRequestSchema]: [name] and [arguments] come
    from [request.params]. *)
Definition CallTool (name : string) (args : option bag) : M envelope :=
  try_catch
    (match switch name tool_cases with
     | Some handler => handler args
     | None => throw (McpError MethodNotFound ("Unknown tool: " +:+ name))
     end)
    (λ error,
       if is_McpError error then throw error
       else throw (McpError InternalError
                     ("Tool execution failed: " +:+ error_message error))).

(** The request [makeRequest] hands to [fetch]. *)
Definition sent_request (endpoint : string) (options : RequestInit) : request :=
  {| req_url := baseUrl +:+ endpoint; req_method := method options;
     req_body := body options; req_headers := merged_headers options |}.

Definition api_error (r : Response) : exn :=
  McpError InternalError
    ("TimeChimp API error: " +:+ pretty (status r) +:+ " " +:+ statusText r
     +:+ " - " +:+ response_text r).

Definition request_failed (message : string) : exn :=
  McpError InternalError ("Request failed: " +:+ message).

Definition missing_key : exn :=
  McpError InvalidRequest "TIMECHIMP_API_KEY environment variable is required".

(** How a request ends once the credential check is passed, read off
    the answer of the network. *)
Definition request_outcome (endpoint : string) (options : RequestInit) : outcome json :=
  match fetch (sent_request endpoint options) with
  | inl message => Thrown (request_failed message)
  | inr r =>
      if response_ok r then
        match response_json r with
        | Returned data => Returned data
        | Thrown e => Thrown (request_failed (error_message e))
        end
      else Thrown (api_error r)
  end.

(** The options each operation reads from its bag. *)
Definition list_keys : list string :=
  ["top"; "skip"; "count"; "expand"; "filter"; "orderby"; "active_only";
   "user_id"; "project_id"; "customer_id"; "from_date"; "to_date"].

Definition history_keys : list string :=
  ["id"; "top"; "skip"; "count"; "expand"; "filter"; "orderby"].

Definition contact_fields : list string :=
  ["name"; "jobTitle"; "email"; "phone"; "useForInvoicing"; "active"; "customers"].

Definition reads_table : list (string * list string) :=
  [ ("get_projects", list_keys);
    ("get_project_by_id", ["id"; "expand"]);
    ("create_project", project_fields);
    ("update_project", "id" :: project_fields);
    ("delete_project", ["id"]);
    ("get_project_insights", ["id"]);
    ("get_users", list_keys);
    ("get_user_by_id", ["id"; "expand"]);
    ("create_user",
     ["userName"; "displayName"; "language"; "role"; "sendInvitation"; "contracts"]);
    ("update_user",
     ["id"; "displayName"; "language"; "employeeNumber"; "badgeNumber";
      "citizenServiceNumber"; "role"; "tags"; "contracts"]);
    ("get_time_entries", list_keys);
    ("get_time_entry_by_id", ["id"; "expand"]);
    ("get_contacts", list_keys);
    ("get_contact_by_id", ["id"; "expand"]);
    ("create_contact", contact_fields);
    ("update_contact", "id" :: contact_fields);
    ("delete_contact", ["id"]);
    ("get_customers", list_keys);
    ("get_customer_by_id", ["id"; "expand"]);
    ("create_customer", customer_fields);
    ("update_customer", "id" :: customer_fields);
    ("delete_customer", ["id"]);
    ("get_tasks", list_keys);
    ("get_task_by_id", ["id"; "expand"]);
    ("get_invoices", list_keys);
    ("get_invoice_by_id", ["id"; "expand"]);
    ("get_expenses", list_keys);
    ("get_expense_by_id", ["id"; "expand"]);
    ("create_expense", expense_fields);
    ("update_expense", "id" :: expense_fields);
    ("delete_expense", ["id"]);
    ("update_expense_status", ["message"; "expenses"; "status"]);
    ("update_expense_client_status", ["clientStatus"; "message"; "expenses"]);
    ("get_expense_status_history", history_keys);
    ("get_mileage", list_keys);
    ("get_mileage_by_id", ["id"; "expand"]);
    ("create_mileage", mileage_fields);
    ("update_mileage", "id" :: mileage_fields);
    ("delete_mileage", ["id"]);
    ("update_mileage_status", ["message"; "mileages"; "status"]);
    ("update_mileage_client_status", ["clientStatus"; "message"; "mileages"]);
    ("get_mileage_status_history", history_keys);
    ("get_mileage_vehicles", list_keys);
    ("get_mileage_vehicle_by_id", ["id"; "expand"]);
    ("get_tags", list_keys);
    ("get_tag_by_id", ["id"; "expand"]) ].

(** Two bags that hold the same values under the given keys. *)
Definition agree_on (keys : list string) (args args' : bag) : Prop :=
  Forall (λ k, prop args k = prop args' k) keys.

(** The dispatch of an operation depends on the listed keys only. *)
Definition reads_only (name : string) (keys : list string)
    (dispatch : string → option bag → M envelope) : Prop :=
  ∀ (args args' : bag) (log : list request),
    agree_on keys args args' →
    dispatch name (Some args) log = dispatch name (Some args') log.

(** What every handler of the catalog does: it ends by returning the
    envelope of one call of [makeRequest], made without headers of its
    own, the envelope of a success being the data received or a fixed
    confirmation; or, for a [count] of [null], it throws before any call. *)
Definition runs_one_request (handler : option bag → M envelope) : Prop :=
  ∀ (args : option bag) (log : list request),
    (∃ endpoint options (ok : json → envelope) (what : string),
        headers options = None
        ∧ (ok = success ∨ ∃ txt, ok = λ _, {| text := txt; isError := false |})
        ∧ handler args log
          = (Returned (match (makeRequest endpoint options log).1 with
                       | Returned data => ok data
                       | Thrown e => failure what e
                       end),
             (makeRequest endpoint options log).2))
    ∨ (prop (default ∅ args) "count" = VNull
       ∧ handler args log = (Thrown null_toString, log)).

(** The HTTP verb a request carries, read against the name of the
    operation that made it: no method and no body (a GET) for [get_],
    POST or PUT with a body for [create_] and [update_], DELETE without
    a body for [delete_]. *)
Definition verb_follows_name (name : string) (req : request) : Prop :=
  (String.prefix "get_" name = true → req_method req = None ∧ req_body req = None)
  ∧ (String.prefix "create_" name = true
     → req_method req = Some "POST" ∧ is_Some (req_body req))
  ∧ (String.prefix "update_" name = true
     → req_method req = Some "PUT" ∧ is_Some (req_body req))
  ∧ (String.prefix "delete_" name = true
     → req_method req = Some "DELETE" ∧ req_body req = None).

(** ** Examples *)

Example filter_time_entries :
  buildFilterExpression
    (bag_of [("user_id", VStr "7"); ("from_date", VStr "2024-01-01");
             ("to_date", VStr "2024-01-31")])
  = VStr "user/id eq 7 and date ge 2024-01-01 and date le 2024-01-31".
Proof. vm_compute. reflexivity. Qed.

Example query_skip_0 :
  buildQueryParams (bag_of [("skip", VNum 0)]) = Returned [].
Proof. vm_compute. reflexivity. Qed.

Example query_skip_5 :
  buildQueryParams (bag_of [("skip", VNum 5)]) = Returned [("$skip", "5")].
Proof. vm_compute. reflexivity. Qed.

Example query_count_false :
  buildQueryParams (bag_of [("count", VBool false)]) = Returned [("$count", "false")].
Proof. vm_compute. reflexivity. Qed.

Example query_toString :
  params_toString [("$orderby", "name desc"); ("$filter", "active eq true")]
  = "%24orderby=name+desc&%24filter=active+eq+true".
Proof. vm_compute. reflexivity. Qed.

(** *** Strings: joining with a separator *)

Lemma app_cons (c : ascii) (a b : string) : String c a +:+ b = String c (a +:+ b).
Proof. reflexivity. Qed.

Lemma app_assoc_string (a b c : string) : (a +:+ b) +:+ c = a +:+ (b +:+ c).
Proof.
  induction a as [|x a IH]; [reflexivity|]. by rewrite !app_cons, IH.
Qed.

Lemma app_empty_r (a : string) : a +:+ "" = a.
Proof.
  induction a as [|x a IH]; [reflexivity|]. by rewrite app_cons, IH.
Qed.

Lemma length_app_string (a b : string) :
  String.length (a +:+ b) = (String.length a + String.length b)%nat.
Proof.
  induction a as [|x a IH]; [reflexivity|]. rewrite app_cons. simpl. by rewrite IH.
Qed.

Lemma nonempty_app_l (a b : string) : nonempty a = true → nonempty (a +:+ b) = true.
Proof. by destruct a. Qed.

Lemma nonempty_length (a : string) : nonempty a = true ↔ (0 < String.length a)%nat.
Proof. destruct a; simpl; split; (done || lia). Qed.

(** Appending one more item to a joined list. *)
Lemma concat_snoc (sep : string) (l : list string) (f : string) :
  l ≠ [] → String.concat sep (l ++ [f]) = String.concat sep l +:+ sep +:+ f.
Proof.
  induction l as [|x l IH]; [done|]. intros _.
  destruct l as [|y l]; [reflexivity|].
  change (String.concat sep ((x :: y :: l) ++ [f]))
    with (x +:+ sep +:+ String.concat sep ((y :: l) ++ [f])).
  rewrite IH by done.
  change (String.concat sep (x :: y :: l))
    with (x +:+ sep +:+ String.concat sep (y :: l)).
  by rewrite !app_assoc_string.
Qed.

(** The length of a joined list: the items, and one separator fewer
  than there are items. *)
Lemma length_concat (sep : string) (l : list string) :
  String.length (String.concat sep l)
  = (total_length l + String.length sep * (List.length l - 1))%nat.
Proof.
  induction l as [|x l IH]; [simpl; lia|].
  destruct l as [|y l]; [simpl; lia|].
  change (String.concat sep (x :: y :: l))
    with (x +:+ sep +:+ String.concat sep (y :: l)).
  rewrite !length_app_string, IH. simpl. lia.
Qed.

Lemma buildFilterExpression_blocks (args : bag) :
  buildFilterExpression args
  = add_raw_filter (prop args "filter")
      (add_fragment (prop args "to_date") ("date le " +:+ String_ (prop args "to_date"))
      (add_fragment (prop args "from_date") ("date ge " +:+ String_ (prop args "from_date"))
      (add_fragment (prop args "customer_id") ("customer/id eq " +:+ String_ (prop args "customer_id"))
      (add_fragment (prop args "project_id") ("project/id eq " +:+ String_ (prop args "project_id"))
      (add_fragment (prop args "user_id") ("user/id eq " +:+ String_ (prop args "user_id"))
      (add_fragment (prop args "active_only") "active eq true" (VStr ""))))))).
Proof. reflexivity. Qed.

Lemma joined_nil : joined (VStr "") [].
Proof. by split. Qed.

Lemma joined_empty (acc : value) : joined acc [] → truthy acc = false.
Proof. by intros [-> _]. Qed.

Lemma opt_fragment_present source fragment :
  truthy source = true → opt_fragment source fragment = [fragment].
Proof. unfold opt_fragment. by intros ->. Qed.

Lemma opt_fragment_absent source fragment :
  truthy source = false → opt_fragment source fragment = [].
Proof. unfold opt_fragment. by intros ->. Qed.

Lemma add_fragment_joined source fragment acc l :
  nonempty fragment = true →
  joined acc l →
  joined (add_fragment source fragment acc) (l ++ opt_fragment source fragment).
Proof.
  intros Hne Hj. unfold add_fragment.
  destruct (truthy source) eqn:Hs.
  2: { by rewrite opt_fragment_absent, app_nil_r. }
  rewrite opt_fragment_present by done.
  destruct l as [|x l].
  - rewrite (joined_empty _ Hj). split; [reflexivity|]. by intros _.
  - destruct Hj as [-> Ht]. rewrite Ht by done.
    unfold joined. rewrite (concat_snoc " and " (x :: l)) by done.
    split; [reflexivity|].
    intros _. apply nonempty_app_l. by apply Ht.
Qed.

Lemma add_raw_filter_joined filter acc l :
  joined acc l →
  String_ (add_raw_filter filter acc)
  = String.concat " and " (l ++ opt_fragment filter (String_ filter)).
Proof.
  intros Hj. unfold add_raw_filter.
  destruct (truthy filter) eqn:Hs.
  2: { rewrite opt_fragment_absent, app_nil_r by done. by destruct Hj as [-> _]. }
  rewrite opt_fragment_present by done.
  destruct l as [|x l].
  - by rewrite (joined_empty _ Hj).
  - destruct Hj as [-> Ht]. rewrite Ht by done.
    by rewrite (concat_snoc " and " (x :: l)).
Qed.

(** Before its last block the composer holds a string: the fragments of
    the first six sources, joined. *)
Lemma accumulator_joined (args : bag) :
  ∃ acc, buildFilterExpression args = add_raw_filter (prop args "filter") acc
         ∧ ∃ s, acc = VStr s ∧ ∃ l, joined acc l.
Proof.
  eexists. split; [apply buildFilterExpression_blocks|].
  match goal with
  | |- ∃ s, ?acc = _ ∧ _ =>
      assert (∃ l, joined acc l) as [l Hl];
      [eexists; repeat (apply add_fragment_joined; [reflexivity|]); apply joined_nil|]
  end.
  destruct Hl as [Hl Ht]. eexists. split; [exact Hl|]. exists l. by split.
Qed.

Lemma fragments_cons source fragment (rest : list (value * string)) :
  map snd (List.filter (fun p => truthy p.1) ((source, fragment) :: rest))
  = opt_fragment source fragment ++ map snd (List.filter (fun p => truthy p.1) rest).
Proof. unfold opt_fragment. cbn [List.filter fst]. by destruct (truthy source). Qed.

Lemma present_fragments_blocks (args : bag) :
  present_fragments args
  = (((((([] ++ opt_fragment (prop args "active_only") "active eq true")
      ++ opt_fragment (prop args "user_id") ("user/id eq " +:+ String_ (prop args "user_id")))
      ++ opt_fragment (prop args "project_id") ("project/id eq " +:+ String_ (prop args "project_id")))
      ++ opt_fragment (prop args "customer_id") ("customer/id eq " +:+ String_ (prop args "customer_id")))
      ++ opt_fragment (prop args "from_date") ("date ge " +:+ String_ (prop args "from_date")))
      ++ opt_fragment (prop args "to_date") ("date le " +:+ String_ (prop args "to_date")))
      ++ opt_fragment (prop args "filter") (String_ (prop args "filter")).
Proof.
  unfold present_fragments, filter_sources. rewrite !fragments_cons.
  cbn [List.filter map]. by rewrite app_nil_r, app_nil_l, !List.app_assoc.
Qed.

Lemma composed_is_join (args : bag) :
  String_ (buildFilterExpression args)
  = String.concat " and " (present_fragments args).
Proof.
  rewrite buildFilterExpression_blocks, present_fragments_blocks.
  apply add_raw_filter_joined.
  repeat (apply add_fragment_joined; [reflexivity|]).
  apply joined_nil.
Qed.

Lemma filter_fst_length (l : list (value * string)) :
  List.length (List.filter (fun p => truthy p.1) l)
  = List.length (List.filter truthy (map fst l)).
Proof.
  induction l as [|[v f] l IH]; [reflexivity|].
  cbn [List.filter map fst]. destruct (truthy v); simpl; by rewrite IH.
Qed.

Lemma present_fragments_length (args : bag) :
  List.length (present_fragments args) = present_count args.
Proof.
  unfold present_fragments, present_count.
  by rewrite length_map, filter_fst_length.
Qed.

Lemma present_none (args : bag) :
  present_count args = 0%nat → present_fragments args = [].
Proof.
  rewrite <- present_fragments_length. by destruct (present_fragments args).
Qed.

(** With a raw filter that is a string, or with none, the composer
    returns a string. *)
Lemma composed_is_string (args : bag) :
  (prop args "filter" = VUndefined ∨ ∃ s, prop args "filter" = VStr s) →
  buildFilterExpression args = VStr (String.concat " and " (present_fragments args)).
Proof.
  intros Hf. rewrite <- composed_is_join.
  destruct (accumulator_joined args) as (acc & -> & s & -> & _).
  unfold add_raw_filter.
  destruct Hf as [->|[f ->]]; [reflexivity|].
  destruct (truthy (VStr f)); [|reflexivity].
  by destruct (truthy (VStr s)).
Qed.

(** C1. The Filter Composer returns the empty string when none of the
    seven sources is present; otherwise its text is the fragments of the
    N sources that are present, each once and in the fixed order
    active-flag, user, project, customer, from-date, to-date, raw filter,
    joined by ` and `: the length of the text is that of the N fragments
    plus that of N-1 separators. *)
Theorem buildFilterExpression_join (args : bag) :
  (present_count args = 0%nat → buildFilterExpression args = VStr "") ∧
  String_ (buildFilterExpression args)
    = String.concat " and " (present_fragments args) ∧
  List.length (present_fragments args) = present_count args ∧
  String.length (String_ (buildFilterExpression args))
    = (total_length (present_fragments args)
       + String.length " and " * (present_count args - 1))%nat.
Proof.
  split; [|split; [|split]].
  - intros H0. pose proof (composed_is_join args) as Hj.
    rewrite (present_none args H0) in Hj.
    assert (Hf : truthy (prop args "filter") = false).
    { revert H0. unfold present_count. cbn [map List.filter].
      repeat match goal with |- context [truthy ?v] => destruct (truthy v) end;
        simpl; (done || lia). }
    revert Hj. destruct (accumulator_joined args) as (acc & -> & s & -> & _).
    unfold add_raw_filter. rewrite Hf. simpl. by intros ->.
  - apply composed_is_join.
  - apply present_fragments_length.
  - rewrite composed_is_join, length_concat. by rewrite present_fragments_length.
Qed.

Lemma buildFilterExpression_join_witness :
  present_count (bag_of [("top", VNum 10)]) = 0%nat ∧
  buildFilterExpression (bag_of [("top", VNum 10)]) = VStr "".
Proof.
  split; [reflexivity|].
  apply (proj1 (buildFilterExpression_join (bag_of [("top", VNum 10)]))).
  reflexivity.
Defined.

(** *** Occurrences of the separator *)

Lemma and_free_cons c s :
  and_free (String c s) → String.prefix "and" (String c s) = false ∧ and_free s.
Proof.
  unfold and_free. cbn [occurrences].
  destruct (String.prefix "and" (String c s)); [lia|]. by intros.
Qed.

Lemma and_not_prefix (y tail : string) :
  and_free y → spaced tail → String.prefix "and" (y +:+ tail) = false.
Proof.
  intros Hy Ht.
  destruct y as [|c1 [|c2 [|c3 y]]]; rewrite ?app_cons.
  - destruct Ht as [->|[t ->]]; reflexivity.
  - change ("" +:+ tail) with tail. cbn [String.prefix].
    destruct (ascii_dec "a" c1); [|done].
    destruct Ht as [->|[t ->]]; reflexivity.
  - change ("" +:+ tail) with tail. cbn [String.prefix].
    destruct (ascii_dec "a" c1); [|done]. destruct (ascii_dec "n" c2); [|done].
    destruct Ht as [->|[t ->]]; reflexivity.
  - apply and_free_cons in Hy as [Hp _]. revert Hp. cbn [String.prefix].
    destruct (ascii_dec "a" c1); [|done]. destruct (ascii_dec "n" c2); [|done].
    destruct (ascii_dec "d" c3); [|done]. by destruct y.
Qed.

Lemma window_prefix (c : ascii) (z : string) :
  String.prefix "and" z = false → String.prefix " and " (String c z) = false.
Proof.
  cbn [String.prefix]. destruct (ascii_dec " " c); [|done].
  destruct z as [|c1 [|c2 [|c3 z]]]; cbn [String.prefix]; try done.
  destruct (ascii_dec "a" c1); [|done]. destruct (ascii_dec "n" c2); [|done].
  destruct (ascii_dec "d" c3); [|done]. by destruct z.
Qed.

Lemma occurrences_and_free (x tail : string) :
  and_free x → spaced tail →
  occurrences " and " (x +:+ tail) = occurrences " and " tail.
Proof.
  intros Hx Ht. induction x as [|c x IH]; [reflexivity|].
  apply and_free_cons in Hx as [_ Hx].
  rewrite app_cons. cbn [occurrences].
  rewrite window_prefix by (by apply and_not_prefix). by rewrite IH.
Qed.

Lemma concat_spaced (y : string) (l : list string) :
  ∃ tail, String.concat " and " (y :: l) = y +:+ tail ∧ spaced tail.
Proof.
  destruct l as [|z l].
  - exists "". split; [by rewrite app_empty_r|by left].
  - exists (" and " +:+ String.concat " and " (z :: l)). split; [reflexivity|].
    right. by eexists.
Qed.

Lemma occurrences_separator (rest : string) :
  String.prefix "and" rest = false →
  occurrences " and " (" and " +:+ rest) = S (occurrences " and " rest).
Proof.
  intros Hr. change (" and " +:+ rest) with (String " " (String "a" (String "n" (String "d" (String " " rest))))).
  cbn [occurrences].
  rewrite (window_prefix " " rest Hr).
  destruct rest as [|c rest]; reflexivity.
Qed.

Lemma occurrences_join (l : list string) :
  Forall and_free l →
  occurrences " and " (String.concat " and " l) = (List.length l - 1)%nat.
Proof.
  induction l as [|x l IH]; [reflexivity|]. intros [Hx Hl]%Forall_cons.
  destruct l as [|y l].
  - cbn [String.concat]. rewrite <- (app_empty_r x).
    rewrite occurrences_and_free; [reflexivity|done|by left].
  - change (String.concat " and " (x :: y :: l))
      with (x +:+ " and " +:+ String.concat " and " (y :: l)).
    rewrite occurrences_and_free; [|done|right; by eexists].
    rewrite occurrences_separator.
    + rewrite IH by done. simpl. lia.
    + destruct (concat_spaced y l) as (tail & -> & Ht).
      apply and_not_prefix; [|done]. by apply Forall_cons in Hl as [? _].
Qed.

Lemma and_free_fragment (p b : string) :
  p ∈ ["user/id eq "; "project/id eq "; "customer/id eq "; "date ge "; "date le "] →
  and_free b → and_free (p +:+ b).
Proof.
  rewrite !elem_of_cons, elem_of_nil. unfold and_free.
  intros H Hb. destruct_or!; subst; try done; rewrite <- Hb; reflexivity.
Qed.

Lemma opt_fragment_and_free source fragment :
  and_free fragment → Forall and_free (opt_fragment source fragment).
Proof. unfold opt_fragment. destruct (truthy source); by repeat constructor. Qed.

Lemma present_fragments_and_free (args : bag) :
  Forall (λ k, and_free (String_ (prop args k))) value_sources →
  Forall and_free (present_fragments args).
Proof.
  unfold value_sources. rewrite !Forall_cons.
  intros (Hu & Hp & Hc & Hf & Ht & Hr & _).
  rewrite present_fragments_blocks. rewrite !Forall_app.
  repeat split; try apply Forall_nil_2;
    apply opt_fragment_and_free; try done;
    apply and_free_fragment; try done; set_solver.
Qed.

(** Read as a count of the places where ` and ` occurs in the text, the
    N-1 of C1 holds whenever the values copied into the filter do not
    themselves contain the word [and]. *)
Lemma composed_occurrences (args : bag) :
  Forall (λ k, and_free (String_ (prop args k))) value_sources →
  occurrences " and " (String_ (buildFilterExpression args))
  = (present_count args - 1)%nat.
Proof.
  intros H. rewrite composed_is_join, occurrences_join.
  - by rewrite present_fragments_length.
  - by apply present_fragments_and_free.
Qed.

(** A raw filter passes through as it is, with the operators it holds. *)
Example raw_filter_with_and :
  present_count (bag_of [("filter", VStr "code eq 1 and active eq true")]) = 1%nat ∧
  buildFilterExpression (bag_of [("filter", VStr "code eq 1 and active eq true")])
  = VStr "code eq 1 and active eq true" ∧
  occurrences " and " "code eq 1 and active eq true" = 1%nat.
Proof. repeat split; vm_compute; reflexivity. Qed.

(** ** The Query Parameter Builder *)

Lemma toString_defined (v : value) :
  v ≠ VNull → is_undefined v = false → toString v = Returned (String_ v).
Proof. by destruct v. Qed.

Lemma toString_truthy (v : value) :
  truthy v = true → toString v = Returned (String_ v).
Proof. by destruct v. Qed.

Lemma truthy_is_Some (args : bag) (k : string) :
  truthy (prop args k) = true → is_Some (args !! k).
Proof. unfold prop. by destruct (args !! k). Qed.

Lemma defined_is_Some (args : bag) (k : string) :
  is_undefined (prop args k) = false → is_Some (args !! k).
Proof. unfold prop. by destruct (args !! k). Qed.

Lemma buildQueryParams_spec (args : bag) :
  prop args "count" ≠ VNull → buildQueryParams args = Returned (query_spec args).
Proof.
  intros Hc. unfold buildQueryParams, query_spec, emit.
  destruct (truthy (prop args "top")) eqn:Htop;
    [rewrite (toString_truthy _ Htop)|];
  (destruct (truthy (prop args "skip")) eqn:Hskip;
    [rewrite (toString_truthy _ Hskip)|]);
  (destruct (is_undefined (prop args "count")) eqn:Hcount;
    [|rewrite (toString_defined _ Hc Hcount)]);
  destruct (truthy (prop args "expand"));
  destruct (truthy (prop args "orderby"));
  destruct (truthy (prop args "filter"));
  reflexivity.
Qed.

(** Decides the equalities between the literal names of the parameters. *)
Ltac decide_names :=
  repeat match goal with
         | |- context [bool_decide (?a = ?b)] =>
             change (bool_decide (a = b)) with false
         | |- context [bool_decide (?a = ?b)] =>
             change (bool_decide (a = b)) with true
         end.

Lemma getAll_app (p q : URLSearchParams) (name : string) :
  params_getAll (p ++ q) name = params_getAll p name ++ params_getAll q name.
Proof. unfold params_getAll. by rewrite List.filter_app, map_app. Qed.

Lemma getAll_emit (present : bool) (name : string) (v : value) (name' : string) :
  params_getAll (emit present name v) name'
  = if present && bool_decide (name = name') then [String_ v] else [].
Proof.
  unfold params_getAll, emit, has_name.
  destruct present; [|reflexivity]. cbn [List.filter fst andb].
  by destruct (bool_decide (name = name')).
Qed.

Lemma elem_of_emit (present : bool) (name : string) (v : value) (p : string * string) :
  p ∈ emit present name v → present = true ∧ p = (name, String_ v).
Proof.
  unfold emit. destruct present; [|by intros ?%elem_of_nil].
  by intros ->%list_elem_of_singleton.
Qed.

(** C6, as amended.  For a bag whose six query options hold no object
    and whose [count] is not [null], the builder returns: [skip] is
    emitted exactly when it is truthy (so 0 is left out and 5 gives 5);
    [count] is emitted whenever it is defined, [false] included; and
    every pair emitted renders an option that the bag holds, so nothing
    is defaulted.  Nothing is said of an option that holds an object,
    whose conversion to text can fail. *)
Theorem buildQueryParams_emits (args : bag) :
  Forall (λ k, object_free (prop args k) = true) query_keys →
  prop args "count" ≠ VNull →
  ∃ params,
    buildQueryParams args = Returned params ∧
    params_getAll params "$skip"
      = (if truthy (prop args "skip") then [String_ (prop args "skip")] else []) ∧
    params_getAll params "$count"
      = (if is_undefined (prop args "count") then []
         else [String_ (prop args "count")]) ∧
    (∀ name v, (name, v) ∈ params →
       ∃ k, name = "$" +:+ k ∧ is_Some (args !! k) ∧ v = String_ (prop args k)).
Proof.
  intros _ Hc. exists (query_spec args). split; [by apply buildQueryParams_spec|].
  unfold query_spec. split; [|split].
  - rewrite !getAll_app, !getAll_emit.
    decide_names.
    rewrite !andb_false_r, andb_true_r. cbn [app]. by rewrite app_nil_r.
  - rewrite !getAll_app, !getAll_emit.
    decide_names.
    rewrite !andb_false_r, andb_true_r. cbn [app].
    by destruct (is_undefined (prop args "count")).
  - intros name v Hin.
    rewrite !elem_of_app in Hin.
    destruct Hin as [Hin|[Hin|[Hin|[Hin|[Hin|Hin]]]]];
      apply elem_of_emit in Hin as [Hp [= -> ->]].
    + exists "top". eauto using truthy_is_Some.
    + exists "skip". eauto using truthy_is_Some.
    + exists "count". apply negb_true_iff in Hp. eauto using defined_is_Some.
    + exists "expand". eauto using truthy_is_Some.
    + exists "orderby". eauto using truthy_is_Some.
    + exists "filter". eauto using truthy_is_Some.
Qed.

Lemma buildQueryParams_emits_witness :
  ∃ params,
    buildQueryParams (bag_of [("skip", VNum 0); ("count", VBool false)])
      = Returned params ∧
    params_getAll params "$skip" = [] ∧
    params_getAll params "$count" = ["false"] ∧
    (∀ name v, (name, v) ∈ params →
       ∃ k, name = "$" +:+ k
            ∧ is_Some (bag_of [("skip", VNum 0); ("count", VBool false)] !! k)
            ∧ v = String_ (prop (bag_of [("skip", VNum 0); ("count", VBool false)]) k)).
Proof.
  apply (buildQueryParams_emits (bag_of [("skip", VNum 0); ("count", VBool false)])).
  - repeat constructor.
  - discriminate.
Defined.

(** C6, as stated, fails: a [count] of [null] is defined, yet the
    builder emits nothing for it and throws instead of returning. *)
Lemma buildQueryParams_null_count :
  is_undefined (prop (bag_of [("count", VNull)]) "count") = false ∧
  buildQueryParams (bag_of [("count", VNull)])
    = Thrown (JsError "Cannot read properties of null (reading 'toString')") ∧
  ¬ ∃ params, buildQueryParams (bag_of [("count", VNull)]) = Returned params.
Proof.
  split; [reflexivity|]. split; [reflexivity|].
  intros [params H]. vm_compute in H. discriminate.
Qed.

(** ** The request executor *)

Ltac run_M :=
  unfold try_catch, throw, lift, mbind, M_bind, mret, M_ret, call_fetch.

Lemma response_json_throws (r : Response) (e : exn) :
  response_json r = Thrown e → is_McpError e = false.
Proof.
  unfold response_json.
  destruct (response_text r); [by intros [= <-]|].
  destruct (JSON_parse _); [by intros [= <-]|done].
Qed.

Lemma makeRequest_without_key endpoint options log :
  has_apiKey = false →
  makeRequest endpoint options log = (Thrown missing_key, log).
Proof. intros H. unfold makeRequest. by rewrite H. Qed.

Lemma makeRequest_with_key endpoint options log :
  has_apiKey = true →
  makeRequest endpoint options log
  = (request_outcome endpoint options, log ++ [sent_request endpoint options]).
Proof.
  intros H. unfold makeRequest, request_outcome. rewrite H. cbn [negb]. run_M.
  fold (sent_request endpoint options).
  destruct (fetch (sent_request endpoint options)) as [message|r]; [reflexivity|].
  destruct (response_ok r); cbn [negb]; [|reflexivity].
  destruct (response_json r) as [data|e] eqn:Hjson; [reflexivity|].
  by rewrite (response_json_throws r e Hjson).
Qed.

(** Whatever [makeRequest] throws is an [McpError]. *)
Lemma makeRequest_throws_McpError endpoint options log e :
  (makeRequest endpoint options log).1 = Thrown e → is_McpError e = true.
Proof.
  destruct has_apiKey eqn:H.
  - rewrite makeRequest_with_key by done. unfold request_outcome. cbn [fst].
    destruct (fetch _) as [message|r]; [by intros [= <-]|].
    destruct (response_ok r); [|by intros [= <-]].
    destruct (response_json r); [done|by intros [= <-]].
  - rewrite makeRequest_without_key by done. by intros [= <-].
Qed.

(** C7. With no credential configured, the executor fails with the
    configuration error before any network activity: for every endpoint
    and every verb, body and header set, nothing is added to the log of
    requests handed to [fetch]. *)
Theorem makeRequest_requires_credential endpoint options log :
  has_apiKey = false →
  makeRequest endpoint options log
  = (Thrown (McpError InvalidRequest
               "TIMECHIMP_API_KEY environment variable is required"), log).
Proof. apply makeRequest_without_key. Qed.

(** C8. When the response has a non-success status, the executor fails
    with an upstream error whose message carries the numeric status, the
    status text and the text of the response body. *)
Theorem makeRequest_upstream_error endpoint options log r :
  has_apiKey = true →
  fetch (sent_request endpoint options) = inr r →
  response_ok r = false →
  makeRequest endpoint options log
  = (Thrown (McpError InternalError
               ("TimeChimp API error: " +:+ pretty (status r) +:+ " "
                +:+ statusText r +:+ " - " +:+ response_text r)),
     log ++ [sent_request endpoint options]).
Proof.
  intros Hkey Hfetch Hok. rewrite makeRequest_with_key by done.
  unfold request_outcome. by rewrite Hfetch, Hok.
Qed.

Lemma makeRequest_transport_failure endpoint options log message :
  has_apiKey = true →
  fetch (sent_request endpoint options) = inl message →
  makeRequest endpoint options log
  = (Thrown (request_failed message), log ++ [sent_request endpoint options]).
Proof.
  intros Hkey Hfetch. rewrite makeRequest_with_key by done.
  unfold request_outcome. by rewrite Hfetch.
Qed.

Lemma makeRequest_parse_failure endpoint options log r message :
  has_apiKey = true →
  fetch (sent_request endpoint options) = inr r →
  response_ok r = true →
  response_json r = Thrown (JsError message) →
  makeRequest endpoint options log
  = (Thrown (request_failed message), log ++ [sent_request endpoint options]).
Proof.
  intros Hkey Hfetch Hok Hjson. rewrite makeRequest_with_key by done.
  unfold request_outcome. by rewrite Hfetch, Hok, Hjson.
Qed.

Lemma response_json_empty (r : Response) :
  response_text r = "" →
  response_json r = Thrown (JsError "Unexpected end of JSON input").
Proof. unfold response_json. by intros ->. Qed.

Lemma makeRequest_success endpoint options log r data :
  has_apiKey = true →
  fetch (sent_request endpoint options) = inr r →
  response_ok r = true →
  response_json r = Returned data →
  makeRequest endpoint options log
  = (Returned data, log ++ [sent_request endpoint options]).
Proof.
  intros Hkey Hfetch Hok Hjson. rewrite makeRequest_with_key by done.
  unfold request_outcome. by rewrite Hfetch, Hok, Hjson.
Qed.

(** *** Headers *)

Lemma has_apiKey_Some : has_apiKey = true → ∃ key, apiKey = Some key.
Proof. unfold has_apiKey. destruct apiKey; [eauto|done]. Qed.

Lemma fixed_headers_api_key : fixed_headers !! "api-key" = Some (default "" apiKey).
Proof. unfold fixed_headers. by simplify_map_eq. Qed.

Lemma fixed_headers_api_version : fixed_headers !! "api-version" = Some "2.0".
Proof. unfold fixed_headers. by simplify_map_eq. Qed.

Lemma merged_headers_lookup (options : RequestInit) (k : string) :
  merged_headers options !! k
  = match default ∅ (headers options) !! k with
    | Some v => Some v
    | None => fixed_headers !! k
    end.
Proof.
  unfold merged_headers.
  destruct (default ∅ (headers options) !! k) as [v|] eqn:Hk.
  - by apply lookup_union_Some_l.
  - by apply lookup_union_r.
Qed.

(** C2, as amended.  Every request the executor issues carries an
    [api-key] and an [api-version] header, whatever [options.headers]
    holds: they cannot be removed.  Each has its configured value unless
    [options.headers] has an entry of that name, which then takes its
    place; and every caller-supplied header is sent as given. *)
Theorem makeRequest_headers endpoint options log :
  has_apiKey = true →
  ∃ req,
    (makeRequest endpoint options log).2 = log ++ [req] ∧
    req_headers req !! "api-key"
      = match default ∅ (headers options) !! "api-key" with
        | Some v => Some v
        | None => apiKey
        end ∧
    req_headers req !! "api-version"
      = Some (default "2.0" (default ∅ (headers options) !! "api-version")) ∧
    (∀ k v, default ∅ (headers options) !! k = Some v → req_headers req !! k = Some v).
Proof.
  intros Hkey. exists (sent_request endpoint options).
  rewrite makeRequest_with_key by done. split; [reflexivity|].
  cbn [sent_request req_headers]. rewrite !merged_headers_lookup.
  rewrite fixed_headers_api_key, fixed_headers_api_version.
  destruct (has_apiKey_Some Hkey) as [key ->].
  split; [|split].
  - by destruct (default ∅ (headers options) !! "api-key").
  - by destruct (default ∅ (headers options) !! "api-version").
  - intros k v Hk. by rewrite merged_headers_lookup, Hk.
Qed.

(** ** The handlers *)

(** A [try] whose [catch] returns an envelope always returns. *)
Lemma try_catch_returns {A : Type} (m : M A) (ok : A → envelope) (ko : exn → envelope) log :
  try_catch (a ← m; mret (ok a)) (λ error, mret (ko error)) log
  = (Returned (match (m log).1 with
               | Returned a => ok a
               | Thrown e => ko e
               end), (m log).2).
Proof. run_M. by destruct (m log) as [[a|e] log']. Qed.

Lemma handleGetByIdRequest_run endpoint id expand log :
  handleGetByIdRequest endpoint id expand log
  = let fullEndpoint :=
      with_query (endpoint +:+ "/" +:+ String_ id) (emit (truthy expand) "$expand" expand) in
    (Returned (match (makeRequest fullEndpoint no_options log).1 with
               | Returned data => success data
               | Thrown e =>
                   failure ("Error retrieving data from " +:+ endpoint +:+ "/"
                            +:+ String_ id) e
               end),
     (makeRequest fullEndpoint no_options log).2).
Proof.
  unfold handleGetByIdRequest, emit, params_append.
  destruct (truthy expand); apply try_catch_returns.
Qed.

Lemma handleGetRequest_run endpoint args defaultOrderBy params log :
  list_params args defaultOrderBy = Returned params →
  handleGetRequest endpoint args defaultOrderBy log
  = (Returned (match (makeRequest (with_query endpoint params) no_options log).1 with
               | Returned data => success data
               | Thrown e => failure ("Error retrieving data from " +:+ endpoint) e
               end),
     (makeRequest (with_query endpoint params) no_options log).2).
Proof.
  intros Hp. unfold handleGetRequest.
  rewrite <- (try_catch_returns (makeRequest (with_query endpoint params) no_options)
                success (failure ("Error retrieving data from " +:+ endpoint))).
  unfold mbind at 1. unfold M_bind, lift. by rewrite Hp.
Qed.

Lemma handleGetRequest_throws endpoint args defaultOrderBy e log :
  list_params args defaultOrderBy = Thrown e →
  handleGetRequest endpoint args defaultOrderBy log = (Thrown e, log).
Proof.
  intros Hp. unfold handleGetRequest.
  unfold mbind at 1. unfold M_bind, lift. by rewrite Hp.
Qed.

Lemma delete_handler_run endpoint label what args log :
  delete_handler endpoint label what (Some args) log
  = let id := prop args "id" in
    let run := makeRequest (endpoint +:+ "/" +:+ String_ id)
                 {| method := Some "DELETE"; body := None; headers := None |} log in
    (Returned (match run.1 with
               | Returned _ =>
                   {| text := label +:+ " " +:+ String_ id +:+ " deleted successfully";
                      isError := false |}
               | Thrown e => failure what e
               end), run.2).
Proof. unfold delete_handler. cbn [default]. apply try_catch_returns. Qed.

(** ** The dispatcher *)

Lemma switch_None {A : Type} (name : string) (cases : list (string * A)) :
  name ∉ map fst cases → switch name cases = None.
Proof.
  induction cases as [|[k a] cases IH]; [done|].
  cbn [map fst switch]. intros Hn%not_elem_of_cons.
  rewrite bool_decide_eq_false_2 by tauto. apply IH. tauto.
Qed.

Lemma tool_cases_names : map fst tool_cases = tool_names.
Proof. reflexivity. Qed.

Lemma CallTool_returned name args log handler env log' :
  switch name tool_cases = Some handler →
  handler args log = (Returned env, log') →
  CallTool name args log = (Returned env, log').
Proof. intros Hs Hh. unfold CallTool, try_catch. by rewrite Hs, Hh. Qed.

(** No exception other than an [McpError] leaves the dispatcher. *)
Lemma CallTool_throws_McpError name args log e :
  (CallTool name args log).1 = Thrown e → is_McpError e = true.
Proof.
  unfold CallTool, try_catch.
  destruct (match switch name tool_cases with
            | Some handler => handler args
            | None => _
            end log) as [[env|e'] log']; [done|].
  destruct (is_McpError e') eqn:He; unfold throw; cbn [fst]; by intros [= <-].
Qed.

Lemma list_operation_case name endpoint :
  (name, endpoint) ∈ list_operations →
  switch name tool_cases = Some (list_handler endpoint).
Proof.
  unfold list_operations. rewrite !elem_of_cons, elem_of_nil.
  intros H. destruct_or!; simplify_eq; reflexivity.
Qed.

Lemma by_id_operation_case name endpoint :
  (name, endpoint) ∈ by_id_operations →
  switch name tool_cases = Some (by_id_handler endpoint).
Proof.
  unfold by_id_operations. rewrite !elem_of_cons, elem_of_nil.
  intros H. destruct_or!; simplify_eq; reflexivity.
Qed.

Lemma delete_operation_case name endpoint label what :
  (name, (endpoint, label, what)) ∈ delete_operations →
  switch name tool_cases = Some (delete_handler endpoint label what).
Proof.
  unfold delete_operations. rewrite !elem_of_cons, elem_of_nil.
  intros H. destruct_or!; simplify_eq; reflexivity.
Qed.

(** C3, as amended.  For a name that is not in the catalog, and any
    argument bag, the dispatcher makes no network call and fails with the
    protocol error for an unknown operation; the error is thrown on to
    the protocol layer, which is what the dispatcher does with every
    [McpError], and is not returned as an envelope. *)
Theorem CallTool_unknown_tool name args log :
  name ∉ tool_names →
  CallTool name args log
  = (Thrown (McpError MethodNotFound ("Unknown tool: " +:+ name)), log).
Proof.
  intros Hn. unfold CallTool, try_catch.
  rewrite switch_None by (by rewrite tool_cases_names). reflexivity.
Qed.

(** C9, as amended.  For every delete operation, when the response has
    a success status and a body that parses as JSON, the result is a
    success envelope that holds the confirmation text, and the data
    parsed from the response is dropped; when the response has a success
    status and a body that does not parse, an empty body included, the
    result is a failure envelope that carries the request failure. *)
Theorem delete_confirms name endpoint label what args log r :
  (name, (endpoint, label, what)) ∈ delete_operations →
  has_apiKey = true →
  fetch (sent_request (endpoint +:+ "/" +:+ String_ (prop args "id"))
           {| method := Some "DELETE"; body := None; headers := None |})
  = inr r →
  response_ok r = true →
  CallTool name (Some args) log
  = (Returned
       (match response_json r with
        | Returned _ =>
            {| text := label +:+ " " +:+ String_ (prop args "id")
                       +:+ " deleted successfully";
               isError := false |}
        | Thrown e => failure what (request_failed (error_message e))
        end),
     log ++ [sent_request (endpoint +:+ "/" +:+ String_ (prop args "id"))
               {| method := Some "DELETE"; body := None; headers := None |}]).
Proof.
  intros Hop Hkey Hfetch Hok.
  apply (CallTool_returned _ _ _ _ _ _ (delete_operation_case _ _ _ _ Hop)).
  rewrite delete_handler_run. cbn zeta.
  rewrite makeRequest_with_key by done. cbn [fst snd].
  unfold request_outcome. rewrite Hfetch, Hok.
  by destruct (response_json r).
Qed.


(** *** The query of a list operation *)

Lemma buildQueryParams_null (args : bag) :
  prop args "count" = VNull → ∃ e, buildQueryParams args = Thrown e.
Proof.
  intros Hc. unfold buildQueryParams. rewrite Hc.
  destruct (truthy (prop args "top")) eqn:Htop;
    [rewrite (toString_truthy _ Htop)|];
  (destruct (truthy (prop args "skip")) eqn:Hskip;
    [rewrite (toString_truthy _ Hskip)|]);
  by eexists.
Qed.

Lemma buildQueryParams_returned (args : bag) (params : URLSearchParams) :
  buildQueryParams args = Returned params → params = query_spec args.
Proof.
  intros Hp.
  assert (prop args "count" = VNull ∨ prop args "count" ≠ VNull) as [Hc|Hc]
    by (destruct (prop args "count"); (by left) || (by right)).
  - destruct (buildQueryParams_null args Hc) as [e He]. congruence.
  - rewrite buildQueryParams_spec in Hp by done. congruence.
Qed.

Lemma filter_filter_negb {A : Type} (P : A → bool) (l : list A) :
  List.filter P (List.filter (λ x, negb (P x)) l) = [].
Proof.
  induction l as [|x l IH]; [reflexivity|]. cbn [List.filter].
  destruct (P x) eqn:HP; cbn [negb List.filter]; [done|]. by rewrite HP.
Qed.

Lemma getAll_set_same (params : URLSearchParams) (name v : string) :
  params_getAll (params_set params name v) name = [v].
Proof.
  unfold params_getAll. induction params as [|p params IH].
  - cbn [params_set List.filter]. unfold has_name at 1. cbn [fst].
    by rewrite bool_decide_eq_true_2.
  - cbn [params_set]. destruct (has_name name p) eqn:Hp.
    + cbn [List.filter]. unfold has_name at 1. cbn [fst].
      rewrite bool_decide_eq_true_2 by done.
      by rewrite filter_filter_negb.
    + cbn [List.filter]. by rewrite Hp.
Qed.

Lemma has_name_other (name name' : string) (p : string * string) :
  name ≠ name' → has_name name p = true → has_name name' p = false.
Proof.
  unfold has_name. intros Hne Hp%bool_decide_eq_true_1.
  apply bool_decide_eq_false_2. congruence.
Qed.

Lemma filter_has_name_other (name name' : string) (l : URLSearchParams) :
  name ≠ name' →
  List.filter (has_name name') (List.filter (λ q, negb (has_name name q)) l)
  = List.filter (has_name name') l.
Proof.
  intros Hne. induction l as [|q l IH]; [reflexivity|]. cbn [List.filter].
  destruct (has_name name q) eqn:Hq; cbn [negb List.filter].
  - by rewrite (has_name_other _ _ _ Hne Hq).
  - destruct (has_name name' q); by rewrite IH.
Qed.

Lemma getAll_set_other (params : URLSearchParams) (name v name' : string) :
  name ≠ name' →
  params_getAll (params_set params name v) name' = params_getAll params name'.
Proof.
  intros Hne. unfold params_getAll. induction params as [|p params IH].
  - cbn [params_set List.filter].
    by rewrite (has_name_other name name' (name, v) Hne)
      by (by apply bool_decide_eq_true_2).
  - cbn [params_set]. destruct (has_name name p) eqn:Hp.
    + cbn [List.filter].
      rewrite (has_name_other name name' (name, v) Hne)
        by (by apply bool_decide_eq_true_2).
      rewrite (has_name_other _ _ _ Hne Hp).
      by rewrite filter_has_name_other.
    + cbn [List.filter]. destruct (has_name name' p); cbn [map]; by rewrite IH.
Qed.

Lemma getAll_append (params : URLSearchParams) (name v name' : string) :
  params_getAll (params_append params name v) name'
  = params_getAll params name' ++ (if bool_decide (name = name') then [v] else []).
Proof.
  unfold params_append. rewrite getAll_app. f_equal.
  unfold params_getAll, has_name. cbn [List.filter fst].
  by destruct (bool_decide (name = name')).
Qed.

Lemma query_spec_orderby (args : bag) :
  params_getAll (query_spec args) "$orderby"
  = if truthy (prop args "orderby") then [String_ (prop args "orderby")] else [].
Proof.
  unfold query_spec. rewrite !getAll_app, !getAll_emit.
  decide_names.
  rewrite !andb_false_r, andb_true_r. cbn [app].
  by destruct (truthy (prop args "orderby")).
Qed.

Lemma query_spec_filter (args : bag) :
  params_getAll (query_spec args) "$filter"
  = if truthy (prop args "filter") then [String_ (prop args "filter")] else [].
Proof.
  unfold query_spec. rewrite !getAll_app, !getAll_emit.
  decide_names.
  rewrite !andb_false_r, andb_true_r. cbn [app].
  by destruct (truthy (prop args "filter")).
Qed.

(** A raw filter that is present makes the composed filter present. *)
Lemma raw_filter_composed (args : bag) :
  truthy (prop args "filter") = true → truthy (buildFilterExpression args) = true.
Proof.
  intros Hf. destruct (accumulator_joined args) as (acc & -> & s & -> & _).
  unfold add_raw_filter. rewrite Hf.
  destruct (truthy (VStr s)) eqn:Hacc; [|done].
  cbn [truthy String_] in *. by apply nonempty_app_l.
Qed.

Lemma list_params_returns (args : bag) (d d' : value) (params : URLSearchParams) :
  list_params args d = Returned params → ∃ params', list_params args d' = Returned params'.
Proof.
  unfold list_params. destruct (buildQueryParams args); [|done]. by eexists.
Qed.

(** Every list operation is dispatched to [handleGetRequest] with its
    base path and no default order. *)
Lemma list_operation_dispatch name endpoint args log params :
  (name, endpoint) ∈ list_operations →
  list_params args VNull = Returned params →
  CallTool name (Some args) log = handleGetRequest endpoint args VNull log.
Proof.
  intros Hop Hp. rewrite (handleGetRequest_run _ _ _ _ _ Hp).
  apply (CallTool_returned _ _ _ _ _ _ (list_operation_case _ _ Hop)).
  unfold list_handler. change (default (∅ : bag) (Some args)) with args.
  cbv zeta. by apply handleGetRequest_run.
Qed.

(** C5. For every argument bag, the query that [handleGetRequest]
    dispatches holds the composed filter under the filter key whenever
    the composed filter is non-empty, once, in place of a raw [filter]
    the builder has emitted; and the default sort order is added only
    when the caller supplied no [orderby].  Every list operation goes
    through [handleGetRequest], with no default order. *)
Theorem handleGetRequest_query endpoint args defaultOrderBy params log :
  has_apiKey = true →
  list_params args defaultOrderBy = Returned params →
  (handleGetRequest endpoint args defaultOrderBy log).2
    = log ++ [sent_request (with_query endpoint params) no_options] ∧
  params_getAll params "$filter"
    = (if truthy (buildFilterExpression args)
       then [String_ (buildFilterExpression args)] else []) ∧
  params_getAll params "$orderby"
    = (if truthy (prop args "orderby") then [String_ (prop args "orderby")]
       else if truthy defaultOrderBy then [String_ defaultOrderBy] else []) ∧
  (∀ name, (name, endpoint) ∈ list_operations →
     CallTool name (Some args) log = handleGetRequest endpoint args VNull log).
Proof.
  intros Hkey Hp. split.
  { rewrite (handleGetRequest_run _ _ _ _ _ Hp). cbn [snd].
    by rewrite makeRequest_with_key. }
  assert (Hdispatch : ∀ name, (name, endpoint) ∈ list_operations →
            CallTool name (Some args) log = handleGetRequest endpoint args VNull log).
  { intros name Hop.
    destruct (list_params_returns args defaultOrderBy VNull params Hp) as [ps Hps].
    by eapply list_operation_dispatch. }
  unfold list_params in Hp.
  destruct (buildQueryParams args) as [params0|e] eqn:Hq; [|done].
  apply buildQueryParams_returned in Hq as ->.
  cbn [mbind outcome_bind] in Hp. unfold mret, outcome_ret in Hp.
  injection Hp as <-. split; [|split; [|exact Hdispatch]].
  - destruct (truthy (buildFilterExpression args)) eqn:Hc.
    + apply getAll_set_same.
    + assert (Hf : truthy (prop args "filter") = false).
      { destruct (truthy (prop args "filter")) eqn:Hf; [|done].
        apply raw_filter_composed in Hf. congruence. }
      destruct (truthy defaultOrderBy && negb (truthy (prop args "orderby")));
        rewrite ?getAll_append, query_spec_filter, Hf; reflexivity.
  - assert (Hset : ∀ ps : URLSearchParams,
              params_getAll (if truthy (buildFilterExpression args)
                             then params_set ps "$filter"
                                    (String_ (buildFilterExpression args))
                             else ps) "$orderby"
              = params_getAll ps "$orderby").
    { intros ps. destruct (truthy (buildFilterExpression args)); [|done].
      by apply getAll_set_other. }
    rewrite Hset.
    destruct (truthy (prop args "orderby")) eqn:Ho;
      destruct (truthy defaultOrderBy); cbn [andb negb];
      rewrite ?getAll_append, query_spec_orderby, Ho; reflexivity.
Qed.

(** ** Further properties of the builders *)

Lemma buildQueryParams_null_exact (args : bag) :
  prop args "count" = VNull →
  buildQueryParams args
  = Thrown (JsError "Cannot read properties of null (reading 'toString')").
Proof.
  intros Hc. unfold buildQueryParams. rewrite Hc.
  destruct (truthy (prop args "top")) eqn:Htop;
    [rewrite (toString_truthy _ Htop)|];
  (destruct (truthy (prop args "skip")) eqn:Hskip;
    [rewrite (toString_truthy _ Hskip)|]);
  reflexivity.
Qed.

Lemma count_null_or_not (args : bag) :
  prop args "count" = VNull ∨ prop args "count" ≠ VNull.
Proof. destruct (prop args "count"); (by left) || (by right). Qed.

(** For a bag whose six query options hold no object, the builder
    throws exactly when [count] is [null], and then it is the
    [TypeError] of reading [toString] on [null]. *)
Theorem buildQueryParams_throws_iff (args : bag) (e : exn) :
  Forall (λ k, object_free (prop args k) = true) query_keys →
  buildQueryParams args = Thrown e
  ↔ prop args "count" = VNull
    ∧ e = JsError "Cannot read properties of null (reading 'toString')".
Proof.
  intros _. split.
  - intros He. destruct (count_null_or_not args) as [Hc|Hc].
    + split; [done|]. rewrite (buildQueryParams_null_exact args Hc) in He. congruence.
    + rewrite buildQueryParams_spec in He by done. discriminate.
  - intros [Hc ->]. by apply buildQueryParams_null_exact.
Qed.

Lemma emit_names (present : bool) (name : string) (v : value) :
  map fst (emit present name v) `sublist_of` [name].
Proof. destruct present; cbn; [done|]. by apply sublist_cons. Qed.

Lemma query_spec_names (args : bag) :
  map fst (query_spec args) `sublist_of` query_names
  ∧ NoDup (map fst (query_spec args)).
Proof.
  assert (Hsub : map fst (query_spec args) `sublist_of` query_names).
  { unfold query_spec, query_names. rewrite !map_app.
    change ["$top"; "$skip"; "$count"; "$expand"; "$orderby"; "$filter"]
      with (["$top"] ++ ["$skip"] ++ ["$count"] ++ ["$expand"] ++ ["$orderby"]
            ++ ["$filter"]).
    repeat apply sublist_app; apply emit_names. }
  split; [exact Hsub|].
  eapply sublist_NoDup; [|exact Hsub].
  apply (bool_decide_unpack _). vm_compute. exact I.
Qed.

(** The builder emits its parameters in the fixed order top, skip,
    count, expand, orderby, filter, each name at most once. *)
Theorem buildQueryParams_order (args : bag) (params : URLSearchParams) :
  buildQueryParams args = Returned params →
  map fst params `sublist_of` query_names ∧ NoDup (map fst params).
Proof. intros ->%buildQueryParams_returned. apply query_spec_names. Qed.

Lemma params_set_names (params : URLSearchParams) (name v k : string) :
  k ∈ map fst (params_set params name v) → k = name ∨ k ∈ map fst params.
Proof.
  induction params as [|p params IH]; cbn [params_set map].
  - rewrite list_elem_of_singleton. by left.
  - destruct (has_name name p); cbn [map fst]; rewrite !elem_of_cons.
    + intros [->|Hk]; [by left|]. right. right.
      apply list_elem_of_fmap in Hk as (q & -> & Hq).
      apply list_elem_of_fmap. exists q. split; [done|].
      apply list_elem_of_In, List.filter_In in Hq as [Hq _]. by apply list_elem_of_In.
    + intros [->|Hk]; [right; by left|]. destruct (IH Hk); [by left|]. right. by right.
Qed.

Lemma params_set_NoDup (params : URLSearchParams) (name v : string) :
  NoDup (map fst params) → NoDup (map fst (params_set params name v)).
Proof.
  induction params as [|p params IH]; cbn [params_set map].
  - intros _. apply NoDup_singleton.
  - intros [Hp Hnd]%NoDup_cons. destruct (has_name name p) eqn:Hn; cbn [map fst].
    + apply NoDup_cons. split.
      * intros (q & Hq1 & Hq)%list_elem_of_fmap.
        apply list_elem_of_In, List.filter_In in Hq as [_ Hq].
        apply negb_true_iff, bool_decide_eq_false_1 in Hq. by apply Hq.
      * eapply sublist_NoDup; [exact Hnd|].
        clear. induction params as [|q params IH]; [done|]. cbn [List.filter].
        destruct (negb (has_name name q)); cbn [map]; [by apply sublist_skip|].
        by apply sublist_cons.
    + apply NoDup_cons. split; [|by apply IH].
      intros [Heq|Hk]%params_set_names; [|done].
      unfold has_name in Hn. by rewrite bool_decide_eq_true_2 in Hn.
Qed.

(** The query a list operation dispatches never carries a parameter name
    twice, whatever the bag and the default order. *)
Theorem list_params_no_duplicates (args : bag) (defaultOrderBy : value)
    (params : URLSearchParams) :
  list_params args defaultOrderBy = Returned params → NoDup (map fst params).
Proof.
  unfold list_params. intros Hp.
  destruct (buildQueryParams args) as [params0|e] eqn:Hq; [|done].
  apply buildQueryParams_returned in Hq as ->.
  destruct (query_spec_names args) as [_ Hnd].
  cbn [mbind outcome_bind] in Hp. unfold mret, outcome_ret in Hp.
  injection Hp as <-.
  assert (Hnd' : NoDup (map fst
            (if truthy defaultOrderBy && negb (truthy (prop args "orderby"))
             then params_append (query_spec args) "$orderby" (String_ defaultOrderBy)
             else query_spec args))).
  { destruct (truthy defaultOrderBy); cbn [andb]; [|done].
    destruct (truthy (prop args "orderby")) eqn:Ho; cbn [negb]; [done|].
    unfold params_append. rewrite map_app. cbn [map fst].
    apply NoDup_app. split; [done|]. split; [|apply NoDup_singleton].
    intros k Hk ->%list_elem_of_singleton.
    apply list_elem_of_fmap in Hk as ([k v] & Hk1 & Hk). cbn in Hk1. subst k.
    assert (Hv : v ∈ params_getAll (query_spec args) "$orderby").
    { unfold params_getAll. apply list_elem_of_fmap. exists ("$orderby", v).
      split; [done|]. apply list_elem_of_In, List.filter_In.
      split; [by apply list_elem_of_In|]. by apply bool_decide_eq_true_2. }
    rewrite query_spec_orderby, Ho in Hv. by apply elem_of_nil in Hv. }
  destruct (truthy (buildFilterExpression args)); [|done].
  by apply params_set_NoDup.
Qed.

(** *** The composer *)

Lemma accumulator_fragments (args : bag) :
  ∃ acc, buildFilterExpression args = add_raw_filter (prop args "filter") acc
         ∧ joined acc (leading_fragments args).
Proof.
  eexists. split; [apply buildFilterExpression_blocks|].
  unfold leading_fragments.
  repeat (apply add_fragment_joined; [reflexivity|]). apply joined_nil.
Qed.

Lemma present_fragments_leading (args : bag) :
  present_fragments args
  = leading_fragments args ++ opt_fragment (prop args "filter") (String_ (prop args "filter")).
Proof. apply present_fragments_blocks. Qed.

(** The composed filter is present exactly when one of the seven sources
    is: a list operation sets the filter parameter in no other case. *)
Theorem composed_present_iff (args : bag) :
  truthy (buildFilterExpression args) = true ↔ (0 < present_count args)%nat.
Proof.
  rewrite <- present_fragments_length, present_fragments_leading.
  destruct (accumulator_fragments args) as (acc & -> & -> & Ht).
  unfold add_raw_filter, opt_fragment.
  destruct (truthy (prop args "filter")) eqn:Hf.
  - rewrite length_app. cbn [List.length]. split; [lia|]. intros _.
    destruct (truthy (VStr _)) eqn:Hacc; [|done].
    cbn [truthy String_] in *. by apply nonempty_app_l.
  - rewrite app_nil_r. destruct (leading_fragments args) as [|f l].
    + cbn. split; [done|lia].
    + split; [cbn; lia|]. intros _. by apply Ht.
Qed.

(** When none of the first six sources is present, the composer hands
    back the raw filter itself, whatever its type, or the empty string
    when there is none. *)
Theorem composed_raw_only (args : bag) :
  Forall (λ k, truthy (prop args k) = false)
    ["active_only"; "user_id"; "project_id"; "customer_id"; "from_date"; "to_date"] →
  buildFilterExpression args
  = if truthy (prop args "filter") then prop args "filter" else VStr "".
Proof.
  rewrite !Forall_cons. intros (Ha & Hu & Hp & Hc & Hf & Ht & _).
  rewrite buildFilterExpression_blocks. unfold add_fragment.
  rewrite Ha, Hu, Hp, Hc, Hf, Ht. unfold add_raw_filter.
  by destruct (truthy (prop args "filter")).
Qed.

Lemma composed_absent (args : bag) :
  Forall (λ k, truthy (prop args k) = false)
    ["active_only"; "user_id"; "project_id"; "customer_id"; "from_date"; "to_date";
     "filter"] →
  buildFilterExpression args = VStr "".
Proof.
  rewrite !Forall_cons. intros (Ha & Hu & Hp & Hc & Hf & Ht & Hr & _).
  rewrite buildFilterExpression_blocks. unfold add_fragment, add_raw_filter.
  by rewrite Ha, Hu, Hp, Hc, Hf, Ht, Hr.
Qed.

(** ** Further properties of the executor *)

(** The executor returns data in one case only: a credential is
    configured, the one request it made was answered with a success
    status, and the body parsed; the data is then what the parser gave. *)
Theorem makeRequest_returns_iff endpoint options log data log' :
  makeRequest endpoint options log = (Returned data, log')
  ↔ has_apiKey = true
    ∧ log' = log ++ [sent_request endpoint options]
    ∧ ∃ r, fetch (sent_request endpoint options) = inr r
           ∧ response_ok r = true
           ∧ response_json r = Returned data.
Proof.
  split.
  - destruct has_apiKey eqn:Hkey.
    + rewrite makeRequest_with_key by done. unfold request_outcome.
      destruct (fetch (sent_request endpoint options)) as [m|r]; [by intros [= ?]|].
      destruct (response_ok r) eqn:Hok; [|by intros [= ?]].
      destruct (response_json r) as [d|e] eqn:Hj; [|by intros [= ?]].
      intros [= -> <-]. eauto 10.
    + rewrite makeRequest_without_key by done. by intros [= ?].
  - intros (Hkey & -> & r & Hf & Hok & Hj).
    rewrite makeRequest_with_key by done. unfold request_outcome.
    by rewrite Hf, Hok, Hj.
Qed.

(** Whatever the answer, the executor hands [fetch] exactly one request
    when a credential is configured, and none otherwise: nothing is
    retried. *)
Theorem makeRequest_single_request endpoint options log :
  (makeRequest endpoint options log).2
  = if has_apiKey then log ++ [sent_request endpoint options] else log.
Proof.
  destruct has_apiKey eqn:Hkey.
  - by rewrite makeRequest_with_key.
  - by rewrite makeRequest_without_key.
Qed.

(** ** Further properties of the dispatcher *)

Lemma switch_Some_elem {A : Type} (name : string) (cases : list (string * A)) (a : A) :
  switch name cases = Some a → (name, a) ∈ cases.
Proof.
  induction cases as [|[k b] cases IH]; [done|]. cbn [switch].
  destruct (bool_decide (name = k)) eqn:Hk.
  - apply bool_decide_eq_true_1 in Hk as ->. intros [= ->]. by left.
  - intros H. right. by apply IH.
Qed.

Lemma switch_is_Some {A : Type} (name : string) (cases : list (string * A)) :
  name ∈ map fst cases → ∃ a, switch name cases = Some a.
Proof.
  induction cases as [|[k b] cases IH]; cbn [map fst switch].
  - by intros ?%elem_of_nil.
  - destruct (bool_decide (name = k)) eqn:Hk; [by eexists|].
    apply bool_decide_eq_false_1 in Hk. intros [?|?]%elem_of_cons; [done|]. by apply IH.
Qed.

Lemma CallTool_thrown_js name args log handler message log' :
  switch name tool_cases = Some handler →
  handler args log = (Thrown (JsError message), log') →
  CallTool name args log
  = (Thrown (McpError InternalError ("Tool execution failed: " +:+ message)), log').
Proof. intros Hs Hh. unfold CallTool, try_catch. by rewrite Hs, Hh. Qed.

Lemma list_params_null (args : bag) (d : value) :
  prop args "count" = VNull → list_params args d = Thrown null_toString.
Proof.
  intros Hc. unfold list_params. by rewrite (buildQueryParams_null_exact args Hc).
Qed.

Lemma list_params_defined (args : bag) (d : value) :
  prop args "count" ≠ VNull → ∃ params, list_params args d = Returned params.
Proof.
  intros Hc. unfold list_params. rewrite (buildQueryParams_spec args Hc). by eexists.
Qed.

Lemma list_handler_runs endpoint : runs_one_request (list_handler endpoint).
Proof.
  intros args log. unfold list_handler. cbv zeta.
  destruct (count_null_or_not (default ∅ args)) as [Hc|Hc].
  - right. split; [done|].
    by apply handleGetRequest_throws, list_params_null.
  - left. destruct (list_params_defined _ VNull Hc) as [params Hp].
    exists (with_query endpoint params), no_options, success,
      ("Error retrieving data from " +:+ endpoint).
    split; [done|]. split; [by left|]. by apply handleGetRequest_run.
Qed.

Lemma by_id_handler_runs endpoint : runs_one_request (by_id_handler endpoint).
Proof.
  intros args log. left. unfold by_id_handler. cbv zeta.
  rewrite handleGetByIdRequest_run. cbv zeta.
  eexists _, no_options, success, _. split; [done|]. split; [by left|reflexivity].
Qed.

Lemma delete_handler_runs endpoint label what :
  runs_one_request (delete_handler endpoint label what).
Proof.
  intros args log. left. unfold delete_handler. cbv zeta.
  eexists _, {| method := Some "DELETE"; body := None; headers := None |}, _, what.
  split; [done|]. split; [right; by eexists|].
  apply (try_catch_returns _ (λ _, _) (failure what)).
Qed.

Lemma send_body_run verb endpoint data what log :
  send_body verb endpoint data what log
  = (Returned (match (makeRequest endpoint
                        {| method := Some verb; body := Some (JSON_stringify data);
                           headers := None |} log).1 with
               | Returned d => success d
               | Thrown e => failure what e
               end),
     (makeRequest endpoint
        {| method := Some verb; body := Some (JSON_stringify data);
           headers := None |} log).2).
Proof. apply try_catch_returns. Qed.

Lemma history_params_run (args : bag) (log : list request) (k : URLSearchParams → M envelope) :
  prop args "count" ≠ VNull →
  (params ← lift (if truthy (prop args "top")
                  then s ← toString (prop args "top"); mret (params_append [] "$top" s)
                  else mret []);
   params ← lift (if truthy (prop args "skip")
                  then s ← toString (prop args "skip");
                       mret (params_append params "$skip" s)
                  else mret params);
   params ← lift (if negb (is_undefined (prop args "count"))
                  then s ← toString (prop args "count");
                       mret (params_append params "$count" s)
                  else mret params);
   k params) log
  = k (emit (truthy (prop args "top")) "$top" (prop args "top")
       ++ emit (truthy (prop args "skip")) "$skip" (prop args "skip")
       ++ emit (negb (is_undefined (prop args "count"))) "$count" (prop args "count"))
      log.
Proof.
  intros Hc. unfold emit.
  destruct (truthy (prop args "top")) eqn:Htop;
    [rewrite (toString_truthy _ Htop)|];
  (destruct (truthy (prop args "skip")) eqn:Hskip;
    [rewrite (toString_truthy _ Hskip)|]);
  (destruct (is_undefined (prop args "count")) eqn:Hcount;
    [|rewrite (toString_defined _ Hc Hcount)]);
  reflexivity.
Qed.

Lemma history_handler_run endpoint what (args : option bag) log :
  prop (default ∅ args) "count" ≠ VNull →
  history_handler endpoint what args log
  = let fullEndpoint :=
      with_query (endpoint +:+ "/" +:+ String_ (prop (default ∅ args) "id")
                  +:+ "/statusHistory") (history_spec (default ∅ args)) in
    (Returned (match (makeRequest fullEndpoint no_options log).1 with
               | Returned data => success data
               | Thrown e => failure what e
               end),
     (makeRequest fullEndpoint no_options log).2).
Proof.
  intros Hc. unfold history_handler. cbv zeta.
  rewrite (history_params_run (default ∅ args) log _ Hc).
  unfold history_spec, emit, params_append.
  destruct (truthy (prop (default ∅ args) "top"));
  destruct (truthy (prop (default ∅ args) "skip"));
  destruct (negb (is_undefined (prop (default ∅ args) "count")));
  destruct (truthy (prop (default ∅ args) "expand"));
  destruct (truthy (prop (default ∅ args) "filter"));
  destruct (truthy (prop (default ∅ args) "orderby"));
  apply try_catch_returns.
Qed.

Lemma history_handler_null endpoint what (args : option bag) log :
  prop (default ∅ args) "count" = VNull →
  history_handler endpoint what args log = (Thrown null_toString, log).
Proof.
  intros Hc. unfold history_handler. cbv zeta. rewrite Hc.
  destruct (truthy (prop (default ∅ args) "top")) eqn:Htop;
    [rewrite (toString_truthy _ Htop)|];
  (destruct (truthy (prop (default ∅ args) "skip")) eqn:Hskip;
    [rewrite (toString_truthy _ Hskip)|]);
  reflexivity.
Qed.

Lemma history_handler_runs endpoint what : runs_one_request (history_handler endpoint what).
Proof.
  intros args log. destruct (count_null_or_not (default ∅ args)) as [Hc|Hc].
  - right. split; [done|]. by apply history_handler_null.
  - left. rewrite (history_handler_run _ _ _ _ Hc). cbv zeta.
    eexists _, no_options, success, what. split; [done|]. split; [by left|reflexivity].
Qed.

(** A handler that sends a body, or asks for the insights of a project. *)
Ltac runs_send_body :=
  intros args log; left;
  eexists _, _, success, _; split; [|split; [by left|apply try_catch_returns]];
  reflexivity.

Ltac runs_with lemma := apply Forall_cons; split; [cbn [snd]; apply lemma|].
Ltac runs_list := runs_with list_handler_runs.
Ltac runs_by_id := runs_with by_id_handler_runs.
Ltac runs_delete := runs_with delete_handler_runs.
Ltac runs_history := runs_with history_handler_runs.
Ltac runs_send := apply Forall_cons; split; [cbn [snd]; runs_send_body|].

Lemma tool_cases_run : Forall (λ c, runs_one_request c.2) tool_cases.
Proof.
  unfold tool_cases.
  runs_list. runs_by_id. runs_send. runs_send. runs_delete. runs_send.
  runs_list. runs_by_id. runs_send. runs_send. runs_list. runs_by_id.
  runs_list. runs_by_id. runs_send. runs_send. runs_delete. runs_list.
  runs_by_id. runs_send. runs_send. runs_delete. runs_list. runs_by_id.
  runs_list. runs_by_id. runs_list. runs_by_id. runs_send. runs_send.
  runs_delete. runs_send. runs_send. runs_history. runs_list. runs_by_id.
  runs_send. runs_send. runs_delete. runs_send. runs_send. runs_history.
  runs_list. runs_by_id. runs_list. runs_by_id.
  apply Forall_nil_2.
Qed.

Lemma tool_runs name handler :
  switch name tool_cases = Some handler → runs_one_request handler.
Proof.
  intros Hs%switch_Some_elem.
  by apply (proj1 (Forall_forall _ _) tool_cases_run (name, handler)).
Qed.

Lemma known_tool name : name ∈ tool_names → ∃ handler, switch name tool_cases = Some handler.
Proof. rewrite <- tool_cases_names. apply switch_is_Some. Qed.


(** One dispatch hands [fetch] at most one request, for every name and
    every bag, and leaves the requests made before it untouched. *)
Theorem CallTool_at_most_one_request name args log :
  ∃ made, (CallTool name args log).2 = log ++ made ∧ (List.length made ≤ 1)%nat.
Proof.
  destruct (switch name tool_cases) as [handler|] eqn:Hs.
  - destruct (tool_runs _ _ Hs args log)
      as [(endpoint & options & ok & what & _ & _ & Hrun)|[Hc Hrun]].
    + rewrite (CallTool_returned _ _ _ _ _ _ Hs Hrun). cbn [snd].
      destruct has_apiKey eqn:Hkey.
      * rewrite makeRequest_with_key by done. eexists. split; [done|]. simpl. lia.
      * rewrite makeRequest_without_key by done. exists []. rewrite app_nil_r.
        split; [done|]. simpl. lia.
    + rewrite (CallTool_thrown_js _ _ _ _ _ _ Hs Hrun). exists [].
      rewrite app_nil_r. split; [done|]. simpl. lia.
  - unfold CallTool, try_catch. rewrite Hs. exists []. rewrite app_nil_r.
    split; [done|]. simpl. lia.
Qed.

(** Without a credential every operation of the catalog, given a bag
    whose converted options hold no object, ends the same way: a failure
    envelope that carries the configuration error, and no request. *)
Theorem CallTool_without_key name args log :
  name ∈ tool_names →
  Forall (λ k, object_free (prop (default ∅ args) k) = true) converted_keys →
  has_apiKey = false →
  prop (default ∅ args) "count" ≠ VNull →
  ∃ what, CallTool name args log = (Returned (failure what missing_key), log).
Proof.
  intros [handler Hs]%known_tool _ Hkey Hc.
  destruct (tool_runs _ _ Hs args log)
    as [(endpoint & options & ok & what & _ & _ & Hrun)|[Hc' _]]; [|done].
  exists what. apply (CallTool_returned _ _ _ _ _ _ Hs).
  rewrite Hrun. by rewrite makeRequest_without_key.
Qed.

Lemma merged_headers_none (options : RequestInit) :
  headers options = None → merged_headers options = fixed_headers.
Proof. unfold merged_headers. intros ->. cbn [default]. apply (left_id_L ∅ (∪)). Qed.

(** With a credential, every operation of the catalog, given a bag whose
    converted options hold no object, makes exactly one request; its
    headers are the fixed set with the configured credential, no handler
    adding any; and the envelope is flagged as an error exactly when
    that request was not answered with a success status and a body that
    parses. *)
Theorem CallTool_with_key name args log :
  name ∈ tool_names →
  Forall (λ k, object_free (prop (default ∅ args) k) = true) converted_keys →
  has_apiKey = true →
  prop (default ∅ args) "count" ≠ VNull →
  ∃ env req,
    CallTool name args log = (Returned env, log ++ [req])
    ∧ req_headers req = fixed_headers
    ∧ (isError env = false
       ↔ ∃ r data, fetch req = inr r ∧ response_ok r = true
                   ∧ response_json r = Returned data).
Proof.
  intros [handler Hs]%known_tool _ Hkey Hc.
  destruct (tool_runs _ _ Hs args log)
    as [(endpoint & options & ok & what & Hh & Hok & Hrun)|[Hc' _]]; [|done].
  rewrite makeRequest_with_key in Hrun by done. cbn [fst snd] in Hrun.
  eexists _, (sent_request endpoint options).
  split; [by apply (CallTool_returned _ _ _ _ _ _ Hs)|].
  split; [by apply merged_headers_none|].
  unfold request_outcome.
  destruct (fetch (sent_request endpoint options)) as [m|r].
  { split; [done|]. by intros (r & d & ? & _). }
  destruct (response_ok r) eqn:Hr.
  2: { split; [done|]. intros (r' & d & [= <-] & ? & _). congruence. }
  destruct (response_json r) as [d|e] eqn:Hj.
  - split; [eauto|]. intros _. by destruct Hok as [->|[txt ->]].
  - split; [done|]. intros (r' & d & [= <-] & _ & ?). congruence.
Qed.



(** *** The requests of the operations that name one entity *)

Lemma with_query_nil (path : string) : with_query path [] = path.
Proof. unfold with_query. apply app_empty_r. Qed.

Lemma with_query_expand (path : string) (v : value) :
  with_query path [("$expand", String_ v)]
  = path +:+ "?%24expand=" +:+ urlencode (String_ v).
Proof. reflexivity. Qed.

(** A get-by-id operation, given an [id] and an [expand] that hold no
    object, asks for the address made of the base, the path, a slash and
    the text of [id] as it stands, not encoded; when [expand] is truthy
    the text [?%24expand=] and the form-encoded expansion follow.  The
    request has no method and no body, and nothing of the bag besides
    [id] and [expand] is read.  As [id] is not encoded, an [id] that
    holds [?] or [&] brings its own query into the address. *)
Theorem get_by_id_request name endpoint args log :
  (name, endpoint) ∈ by_id_operations →
  object_free (prop args "id") = true →
  object_free (prop args "expand") = true →
  has_apiKey = true →
  (CallTool name (Some args) log).2
  = log ++ [ {| req_url :=
                  baseUrl +:+ endpoint +:+ "/" +:+ String_ (prop args "id")
                  +:+ (if truthy (prop args "expand")
                       then "?%24expand=" +:+ urlencode (String_ (prop args "expand"))
                       else "");
                req_method := None; req_body := None;
                req_headers := fixed_headers |} ].
Proof.
  intros Hop _ _ Hkey.
  assert (Hrun := handleGetByIdRequest_run endpoint (prop args "id")
                    (prop args "expand") log).
  cbv zeta in Hrun.
  erewrite (CallTool_returned _ _ _ (by_id_handler endpoint));
    [|by apply by_id_operation_case
     |unfold by_id_handler; change (default (∅ : bag) (Some args)) with args;
      exact Hrun].
  rewrite makeRequest_with_key by done. cbn [snd].
  unfold sent_request. rewrite merged_headers_none by done. unfold emit.
  destruct (truthy (prop args "expand")).
  - rewrite with_query_expand.
    by rewrite (app_assoc_string endpoint), (app_assoc_string "/").
  - by rewrite with_query_nil, app_empty_r.
Qed.

(** A delete operation dispatched without [id] is not stopped either:
    it sends DELETE to the path ending in [undefined], and reports the
    deletion of [undefined] when the service answers with data. *)
Theorem delete_without_id name endpoint label what args log :
  (name, (endpoint, label, what)) ∈ delete_operations →
  args !! "id" = None →
  has_apiKey = true →
  CallTool name (Some args) log
  = (Returned
       (match request_outcome (endpoint +:+ "/undefined")
                {| method := Some "DELETE"; body := None; headers := None |} with
        | Returned _ =>
            {| text := label +:+ " undefined deleted successfully"; isError := false |}
        | Thrown e => failure what e
        end),
     log ++ [sent_request (endpoint +:+ "/undefined")
               {| method := Some "DELETE"; body := None; headers := None |}]).
Proof.
  intros Hop Hid Hkey.
  assert (Hundef : prop args "id" = VUndefined) by (unfold prop; by rewrite Hid).
  apply (CallTool_returned _ _ _ _ _ _ (delete_operation_case _ _ _ _ Hop)).
  rewrite delete_handler_run. cbv zeta. rewrite Hundef.
  by rewrite makeRequest_with_key.
Qed.


(** With none of its options given, a list operation asks for the bare
    path: no question mark and no parameter. *)
Theorem list_without_options name endpoint args log :
  (name, endpoint) ∈ list_operations →
  has_apiKey = true →
  Forall (λ k, truthy (prop (default ∅ args) k) = false)
    ["top"; "skip"; "expand"; "orderby"; "filter"; "active_only"; "user_id";
     "project_id"; "customer_id"; "from_date"; "to_date"] →
  prop (default ∅ args) "count" = VUndefined →
  (CallTool name args log).2
  = log ++ [ {| req_url := baseUrl +:+ endpoint; req_method := None;
                req_body := None; req_headers := fixed_headers |} ].
Proof.
  intros Hop Hkey. rewrite !Forall_cons.
  intros (Ht & Hs & He & Ho & Hf & Ha & Hu & Hp & Hcu & Hfd & Htd & _) Hc.
  assert (Hparams : list_params (default ∅ args) VNull = Returned []).
  { unfold list_params. rewrite buildQueryParams_spec by (rewrite Hc; discriminate).
    unfold query_spec. rewrite Ht, Hs, He, Ho, Hf, Hc.
    cbn [mbind outcome_bind emit negb is_undefined app andb truthy].
    by rewrite composed_absent by (repeat constructor; assumption). }
  assert (Hrun := handleGetRequest_run endpoint _ _ _ log Hparams).
  erewrite (CallTool_returned _ _ _ (list_handler endpoint));
    [|by apply list_operation_case|unfold list_handler; exact Hrun].
  rewrite makeRequest_with_key by done. cbn [snd].
  unfold sent_request. rewrite merged_headers_none by done.
  by rewrite with_query_nil.
Qed.

(** *** What an operation reads *)

Lemma CallTool_ext name handler (args args' : option bag) log :
  switch name tool_cases = Some handler →
  handler args log = handler args' log →
  CallTool name args log = CallTool name args' log.
Proof. intros Hs Hh. unfold CallTool, try_catch. by rewrite Hs, Hh. Qed.

(** Uses the equalities that [agree_on] gives to turn one bag into the
    other wherever it is read. *)
Ltac use_agreement H :=
  unfold agree_on in H; rewrite ?Forall_cons in H;
  repeat match type of H with
         | _ ∧ _ => let H1 := fresh "Hk" in destruct H as [H1 H]; try rewrite !H1
         end.

Lemma buildFilterExpression_ext (args args' : bag) :
  agree_on ["active_only"; "user_id"; "project_id"; "customer_id"; "from_date";
            "to_date"; "filter"] args args' →
  buildFilterExpression args = buildFilterExpression args'.
Proof. intros H. rewrite !buildFilterExpression_blocks. by use_agreement H. Qed.

Lemma buildQueryParams_ext (args args' : bag) :
  agree_on ["top"; "skip"; "count"; "expand"; "filter"; "orderby"] args args' →
  buildQueryParams args = buildQueryParams args'.
Proof. intros H. unfold buildQueryParams. by use_agreement H. Qed.

Lemma agree_on_sub (keys keys' : list string) (args args' : bag) :
  keys' ⊆ keys → agree_on keys args args' → agree_on keys' args args'.
Proof.
  unfold agree_on. rewrite !Forall_forall. intros Hsub H k Hk. by apply H, Hsub.
Qed.

Lemma list_handler_ext endpoint (args args' : bag) log :
  agree_on list_keys args args' →
  list_handler endpoint (Some args) log = list_handler endpoint (Some args') log.
Proof.
  intros H. unfold list_handler, handleGetRequest, list_params. cbv zeta.
  change (default (∅ : bag) (Some args)) with args.
  change (default (∅ : bag) (Some args')) with args'.
  rewrite (buildQueryParams_ext args args'), (buildFilterExpression_ext args args').
  - assert (Ho : prop args "orderby" = prop args' "orderby").
    { unfold agree_on in H. rewrite Forall_forall in H. apply H.
      apply (bool_decide_unpack _). vm_compute. exact I. }
    by rewrite Ho.
  - eapply agree_on_sub; [|exact H].
    intros k Hk. revert Hk. unfold list_keys. rewrite !elem_of_cons, !elem_of_nil. tauto.
  - eapply agree_on_sub; [|exact H].
    intros k Hk. revert Hk. unfold list_keys. rewrite !elem_of_cons, !elem_of_nil. tauto.
Qed.

Ltac reads_unfold :=
  cbv beta iota zeta delta
    [by_id_handler delete_handler history_handler handleGetByIdRequest
     getProjectById getUserById getTimeEntryById getContactById getCustomerById
     getTaskById getInvoiceById getExpenseById getMileageById
     getMileageVehicleById getTagById
     deleteProject deleteContact deleteCustomer deleteExpense deleteMileage
     getExpenseStatusHistory getMileageStatusHistory
     createProject updateProject getProjectInsights createUser updateUser
     createContact updateContact createCustomer updateCustomer
     createExpense updateExpense updateExpenseStatus updateExpenseClientStatus
     createMileage updateMileage updateMileageStatus updateMileageClientStatus
     project_fields customer_fields expense_fields mileage_fields
     pick spread_if_truthy spread_if_defined from_option id map].

Ltac reads_keys H :=
  cbv beta iota zeta delta
    [project_fields customer_fields expense_fields mileage_fields contact_fields
     list_keys history_keys] in H.

Ltac reads_entry :=
  let H := fresh "Hagree" in
  intros ? ? ? H; cbn [fst snd] in *;
  (eapply CallTool_ext; [reflexivity|]);
  lazymatch goal with
  | |- ?h _ _ = _ =>
      let h' := eval red in h in
      lazymatch h' with
      | list_handler _ => apply list_handler_ext; exact H
      | _ => reads_unfold; reads_keys H; use_agreement H; reflexivity
      end
  end.

Lemma reads_table_ok : Forall (λ entry, reads_only entry.1 entry.2 CallTool) reads_table.
Proof.
  unfold reads_table.
  repeat (apply Forall_cons; split; [reads_entry|]).
  apply Forall_nil_2.
Qed.

(** An operation reads only the options listed for it: two bags that
    agree on them are dispatched alike, whatever else they hold. *)
Theorem CallTool_reads_only name keys (args args' : bag) log :
  (name, keys) ∈ reads_table →
  agree_on keys args args' →
  CallTool name (Some args) log = CallTool name (Some args') log.
Proof.
  intros Hin. by apply (proj1 (Forall_forall _ _) reads_table_ok (name, keys) Hin).
Qed.

Lemma reads_table_names : map fst reads_table = tool_names.
Proof. reflexivity. Qed.

(** ** The text of the query *)

Lemma urldecode_plus (rest : string) :
  urldecode (String "+" rest) = String " " (urldecode rest).
Proof. reflexivity. Qed.

Lemma urldecode_percent (h l : ascii) (rest : string) :
  urldecode (String "%" (String h (String l rest)))
  = String (ascii_of_N (16 * hex_value h + hex_value l)) (urldecode rest).
Proof. reflexivity. Qed.

Lemma urldecode_plain (c : ascii) (rest : string) :
  (c =? "+")%char = false → (c =? "%")%char = false →
  urldecode (String c rest) = String c (urldecode rest).
Proof. intros H1 H2. cbn [urldecode]. by rewrite H1, H2. Qed.

(** Evaluates the encoding of the byte at hand and decodes it by the
    equation of its case. *)
Ltac decode_byte :=
  match goal with
  | |- context [urlencode_byte ?c] =>
      let v := eval vm_compute in (urlencode_byte c) in
      change (urlencode_byte c) with v
  end;
  rewrite ?app_cons;
  match goal with |- context ["" +:+ ?rest] => change ("" +:+ rest) with rest end;
  first [ apply urldecode_plus
        | rewrite urldecode_percent; f_equal; vm_compute; reflexivity
        | apply urldecode_plain; reflexivity ].

Lemma urldecode_byte (c : ascii) (rest : string) :
  urldecode (urlencode_byte c +:+ rest) = String c (urldecode rest).
Proof.
  destruct c as [[] [] [] [] [] [] [] []]; decode_byte.
Qed.

Lemma urldecode_urlencode (s : string) : urldecode (urlencode s) = s.
Proof.
  induction s as [|c s IH]; [reflexivity|].
  cbn [urlencode]. by rewrite urldecode_byte, IH.
Qed.

Lemma occurrences_char_app (c : ascii) (a b : string) :
  occurrences (String c "") (a +:+ b)
  = (occurrences (String c "") a + occurrences (String c "") b)%nat.
Proof.
  induction a as [|x a IH].
  - change ("" +:+ b) with b. cbn [occurrences String.prefix]. lia.
  - rewrite app_cons. cbn [occurrences String.prefix]. rewrite IH.
    destruct (ascii_dec c x); [|lia].
    assert (Hp : ∀ s, String.prefix "" s = true) by (by intros []).
    rewrite !Hp. lia.
Qed.

Lemma urlencode_byte_separators (c : ascii) :
  occurrences "&" (urlencode_byte c) = 0%nat ∧ occurrences "=" (urlencode_byte c) = 0%nat.
Proof.
  destruct c as [[] [] [] [] [] [] [] []]; vm_compute; by split.
Qed.

Lemma urlencode_separators (s : string) :
  occurrences "&" (urlencode s) = 0%nat ∧ occurrences "=" (urlencode s) = 0%nat.
Proof.
  induction s as [|c s [IH1 IH2]]; [by split|]. cbn [urlencode].
  rewrite !occurrences_char_app, IH1, IH2.
  destruct (urlencode_byte_separators c) as [-> ->]. by split.
Qed.

Lemma encode_pair_separators (p : string * string) :
  occurrences "&" (encode_pair p) = 0%nat ∧ occurrences "=" (encode_pair p) = 1%nat.
Proof.
  unfold encode_pair. rewrite !occurrences_char_app.
  destruct (urlencode_separators p.1) as [-> ->].
  destruct (urlencode_separators p.2) as [-> ->]. by split.
Qed.

Lemma params_toString_pairs (params : URLSearchParams) :
  params_toString params = String.concat "&" (map encode_pair params).
Proof. reflexivity. Qed.

(** However the names and the values read, the query text has one [=]
    for each parameter and one [&] between two parameters: a value
    cannot add a parameter or cut one short. *)
Theorem params_toString_separators (params : URLSearchParams) :
  occurrences "=" (params_toString params) = List.length params
  ∧ occurrences "&" (params_toString params) = (List.length params - 1)%nat.
Proof.
  rewrite params_toString_pairs.
  induction params as [|p params [IH1 IH2]]; [by split|].
  destruct (encode_pair_separators p) as [Hamp Heq].
  destruct params as [|q params].
  - cbn [map String.concat List.length]. by rewrite Hamp, Heq.
  - change (String.concat "&" (map encode_pair (p :: q :: params)))
      with (encode_pair p +:+ "&" +:+ String.concat "&" (map encode_pair (q :: params))).
    rewrite !occurrences_char_app, IH1, IH2, Hamp, Heq.
    change (occurrences "=" "&") with 0%nat. change (occurrences "&" "&") with 1%nat.
    cbn [List.length]. split; lia.
Qed.

Lemma occurrences_char_cons (sep c : ascii) (s : string) :
  occurrences (String sep "") (String c s) = 0%nat →
  (c =? sep)%char = false ∧ occurrences (String sep "") s = 0%nat.
Proof.
  cbn [occurrences String.prefix]. destruct (ascii_dec sep c) as [->|Hne].
  - destruct s; simpl; lia.
  - intros H. split; [|lia]. apply Ascii.eqb_neq. congruence.
Qed.

Lemma split_all_free (sep : ascii) (a : string) :
  occurrences (String sep "") a = 0%nat → split_all sep a = [a].
Proof.
  induction a as [|c a IH]; [done|].
  intros [Hc Ha]%occurrences_char_cons. cbn [split_all]. by rewrite Hc, IH.
Qed.

Lemma split_all_app (sep : ascii) (a rest : string) :
  occurrences (String sep "") a = 0%nat →
  split_all sep (a +:+ String sep rest) = a :: split_all sep rest.
Proof.
  induction a as [|c a IH].
  - intros _. change ("" +:+ String sep rest) with (String sep rest).
    cbn [split_all]. by rewrite Ascii.eqb_refl.
  - intros [Hc Ha]%occurrences_char_cons. rewrite app_cons. cbn [split_all].
    by rewrite Hc, IH.
Qed.

Lemma split_at_app (sep : ascii) (a rest : string) :
  occurrences (String sep "") a = 0%nat →
  split_at sep (a +:+ String sep rest) = (a, Some rest).
Proof.
  induction a as [|c a IH].
  - intros _. change ("" +:+ String sep rest) with (String sep rest).
    cbn [split_at]. by rewrite Ascii.eqb_refl.
  - intros [Hc Ha]%occurrences_char_cons. rewrite app_cons. cbn [split_at].
    by rewrite Hc, IH.
Qed.

Lemma encode_pair_nonempty (p : string * string) : nonempty (encode_pair p) = true.
Proof.
  unfold encode_pair. destruct (urlencode p.1); [reflexivity|]. by rewrite app_cons.
Qed.

Lemma encode_pair_parsed (p : string * string) :
  (let (name, value) := split_at "=" (encode_pair p) in
   (urldecode name, urldecode (default "" value))) = p.
Proof.
  unfold encode_pair. change ("=" +:+ urlencode p.2) with (String "=" (urlencode p.2)).
  rewrite split_at_app by apply urlencode_separators. cbn [default from_option id].
  rewrite !urldecode_urlencode. by destruct p.
Qed.

(** Reading the query text back gives the list of parameters that was
    serialised, pair for pair and in order. *)
Lemma params_toString_parsed (params : URLSearchParams) :
  params_parse (params_toString params) = params.
Proof.
  rewrite params_toString_pairs. unfold params_parse.
  induction params as [|p params IH]; [reflexivity|].
  destruct params as [|q params].
  - cbn [map String.concat].
    rewrite split_all_free by apply encode_pair_separators.
    cbn [List.filter]. rewrite encode_pair_nonempty. cbn [map].
    by rewrite encode_pair_parsed.
  - change (String.concat "&" (map encode_pair (p :: q :: params)))
      with (encode_pair p
            +:+ String "&" (String.concat "&" (map encode_pair (q :: params)))).
    rewrite split_all_app by apply encode_pair_separators.
    cbn [List.filter]. rewrite encode_pair_nonempty.
    rewrite (List.map_cons _ (encode_pair p)).
    by rewrite encode_pair_parsed, IH.
Qed.

(** For one path, two lists of parameters that differ, be it in a name,
    a value, the order or the number of entries, give two different
    addresses: the encoding loses nothing of what a handler built. *)
Theorem with_query_injective (path : string) (params params' : URLSearchParams) :
  params ≠ params' → with_query path params ≠ with_query path params'.
Proof.
  intros Hne Heq. apply Hne.
  rewrite <- (params_toString_parsed params), <- (params_toString_parsed params').
  f_equal. unfold with_query in Heq. apply (inj (String.app path)) in Heq.
  destruct (params_toString params), (params_toString params');
    cbn [nonempty] in Heq; try discriminate Heq; [reflexivity|].
  by apply (inj (String.app "?")) in Heq.
Qed.

(** ** The tool list against the handlers *)

Lemma tools_names : map (λ t, t.1.1) tools = tool_names.
Proof. reflexivity. Qed.

Lemma tools_schemas :
  Forall (λ t, t.1.1 ∈ map fst list_operations
               ∨ ∃ keys, switch t.1.1 reads_table = Some keys ∧ keys ⊆ t.1.2) tools.
Proof.
  unfold tools.
  repeat (apply Forall_cons; split;
          [ cbn [fst snd];
            first [ left; apply (bool_decide_unpack _); vm_compute; exact I
                  | right; eexists; split;
                    [ reflexivity
                    | apply (bool_decide_unpack _); vm_compute; exact I ] ] |]).
  apply Forall_nil_2.
Qed.

Lemma agree_on_subseteq (keys keys' : list string) (args args' : bag) :
  keys ⊆ keys' → agree_on keys' args args' → agree_on keys args args'.
Proof.
  unfold agree_on. rewrite !Forall_forall. intros Hsub H k Hk. apply H, Hsub, Hk.
Qed.

(** An operation other than the list operations depends on the
    properties its schema declares and on nothing else: two bags that
    agree on them are dispatched alike. *)
Theorem CallTool_declared_only name properties required (args args' : bag) log :
  (name, properties, required) ∈ tools →
  name ∉ map fst list_operations →
  agree_on properties args args' →
  CallTool name (Some args) log = CallTool name (Some args') log.
Proof.
  intros Hin Hnl Hagree.
  destruct (proj1 (Forall_forall _ _) tools_schemas _ Hin) as [Hl|(keys & Hk & Hsub)];
    [done|]. cbn [fst snd] in Hk, Hsub.
  apply (proj1 (Forall_forall _ _) reads_table_ok (name, keys)
           (switch_Some_elem _ _ _ Hk)).
  by apply (agree_on_subseteq keys properties).
Qed.

Lemma elem_of_map_fst {A B : Type} (l : list (A * B)) (a : A) (b : B) :
  (a, b) ∈ l → a ∈ map fst l.
Proof.
  induction l as [|c l IH]; [by intros ?%elem_of_nil|].
  intros [<-|H]%elem_of_cons; cbn [map fst]; [by left|right; by apply IH].
Qed.

Lemma tools_list_schemas :
  Forall (λ t, t.1.1 ∈ map fst list_operations
               → "active_only" ∉ t.1.2 ∨ "user_id" ∉ t.1.2) tools.
Proof. apply (bool_decide_unpack _). vm_compute. exact I. Qed.

Lemma list_handler_one_filter name endpoint k fragment log :
  (name, endpoint) ∈ list_operations →
  has_apiKey = true →
  list_params {[ k := VBool true ]} VNull = Returned [("$filter", fragment)] →
  (CallTool name (Some {[ k := VBool true ]}) log).2
  = log ++ [sent_request (with_query endpoint [("$filter", fragment)]) no_options].
Proof.
  intros Hop Hkey Hparams.
  assert (Hrun := handleGetRequest_run endpoint _ _ _ log Hparams).
  erewrite (CallTool_returned _ _ _ (list_handler endpoint));
    [|by apply list_operation_case|unfold list_handler; exact Hrun].
  by rewrite makeRequest_with_key.
Qed.

(** The schema of every list operation leaves out [active_only] or
    [user_id], and forbids additional properties; the handler reads the
    option all the same, and the request carries its filter. *)
Theorem list_operation_reads_undeclared name endpoint properties required log :
  (name, endpoint) ∈ list_operations →
  (name, properties, required) ∈ tools →
  has_apiKey = true →
  ∃ k fragment,
    (k ∉ properties)
    ∧ (k, fragment) ∈ [("active_only", "active+eq+true");
                       ("user_id", "user%2Fid+eq+true")]
    ∧ (CallTool name (Some {[ k := VBool true ]}) log).2
      = log ++ [sent_request (endpoint +:+ "?%24filter=" +:+ fragment) no_options].
Proof.
  intros Hop Hin Hkey.
  assert (Hl : name ∈ map fst list_operations).
  { by apply (elem_of_map_fst _ name endpoint). }
  destruct (proj1 (Forall_forall _ _) tools_list_schemas _ Hin Hl) as [Hk|Hk];
    cbn [fst snd] in Hk.
  - exists "active_only", "active+eq+true". split; [done|]. split; [by left|].
    by rewrite (list_handler_one_filter name endpoint "active_only" "active eq true").
  - exists "user_id", "user%2Fid+eq+true". split; [done|].
    split; [right; by left|].
    by rewrite (list_handler_one_filter name endpoint "user_id" "user/id eq true").
Qed.

(** ** The verb of a request *)

Lemma log_not_extended (log : list request) (req : request) : log ≠ log ++ [req].
Proof.
  intros H. apply (f_equal List.length) in H. rewrite length_app in H.
  simpl in H. lia.
Qed.

Lemma makeRequest_sent endpoint options log req :
  (makeRequest endpoint options log).2 = log ++ [req] →
  req = sent_request endpoint options.
Proof.
  destruct has_apiKey eqn:Hkey.
  - rewrite makeRequest_with_key by done. cbn [snd].
    intros H%(inj (app log)). by injection H.
  - rewrite makeRequest_without_key by done. cbn [snd].
    intros H. by apply log_not_extended in H.
Qed.

Lemma sends_of_run (out : outcome envelope * list request) endpoint options
    (ok : json → envelope) (what : string) log req :
  out = (Returned (match (makeRequest endpoint options log).1 with
                   | Returned data => ok data
                   | Thrown e => failure what e
                   end),
         (makeRequest endpoint options log).2) →
  out.2 = log ++ [req] →
  req_method req = method options ∧ req_body req = body options.
Proof. intros -> ->%makeRequest_sent. done. Qed.

Lemma list_handler_sends endpoint args log req :
  (list_handler endpoint args log).2 = log ++ [req] →
  req_method req = None ∧ req_body req = None.
Proof.
  unfold list_handler. cbv zeta.
  destruct (count_null_or_not (default ∅ args)) as [Hc|Hc].
  - rewrite (handleGetRequest_throws _ _ _ _ _ (list_params_null _ VNull Hc)).
    cbn [snd]. intros H. by apply log_not_extended in H.
  - destruct (list_params_defined _ VNull Hc) as [params Hp].
    apply (sends_of_run _ _ no_options _ _ _ _ (handleGetRequest_run _ _ _ _ _ Hp)).
Qed.

Lemma by_id_handler_sends endpoint args log req :
  (by_id_handler endpoint args log).2 = log ++ [req] →
  req_method req = None ∧ req_body req = None.
Proof.
  unfold by_id_handler. cbv zeta.
  apply (sends_of_run _ _ no_options _ _ _ _ (handleGetByIdRequest_run _ _ _ _)).
Qed.

Lemma history_handler_sends endpoint what args log req :
  (history_handler endpoint what args log).2 = log ++ [req] →
  req_method req = None ∧ req_body req = None.
Proof.
  destruct (count_null_or_not (default ∅ args)) as [Hc|Hc].
  - rewrite (history_handler_null endpoint what _ _ Hc).
    cbn [snd]. intros H. by apply log_not_extended in H.
  - apply (sends_of_run _ _ no_options _ _ _ _ (history_handler_run _ _ _ _ Hc)).
Qed.

Lemma delete_handler_sends endpoint label what args log req :
  (delete_handler endpoint label what args log).2 = log ++ [req] →
  req_method req = Some "DELETE" ∧ req_body req = None.
Proof.
  unfold delete_handler. cbv zeta.
  apply (sends_of_run _ _ {| method := Some "DELETE"; body := None; headers := None |}
           (λ _, _) what _ _ (try_catch_returns _ (λ _, _) (failure what) _)).
Qed.

Ltac by_name Hsent :=
  unfold verb_follows_name; cbn [fst];
  (split; [|split; [|split]]);
  (let Hp := fresh in intros Hp; vm_compute in Hp; try discriminate Hp);
  first [exact Hsent | split; [apply Hsent | rewrite (proj2 Hsent); by eexists]].

Ltac verb_with lemma :=
  apply Forall_cons; split;
  [ let H := fresh in
    intros args log req H; cbn [snd] in H;
    match type of H with
    | (?h _ _).2 = _ => let h' := eval red in h in change h with h' in H
    end;
    apply lemma in H; by_name H |].

Ltac verb_send :=
  apply Forall_cons; split;
  [ let H := fresh in
    intros args log req H; cbn [snd] in H;
    eapply (sends_of_run _ _ _ success) in H; [|apply try_catch_returns];
    cbn [method body] in H; by_name H |].

Lemma tool_cases_verbs :
  Forall (λ c, ∀ args log req,
            (c.2 args log).2 = log ++ [req] → verb_follows_name c.1 req)
    tool_cases.
Proof.
  unfold tool_cases.
  verb_with list_handler_sends. verb_with by_id_handler_sends. verb_send. verb_send.
  verb_with delete_handler_sends. verb_send.
  verb_with list_handler_sends. verb_with by_id_handler_sends. verb_send. verb_send.
  verb_with list_handler_sends. verb_with by_id_handler_sends.
  verb_with list_handler_sends. verb_with by_id_handler_sends. verb_send. verb_send.
  verb_with delete_handler_sends.
  verb_with list_handler_sends. verb_with by_id_handler_sends. verb_send. verb_send.
  verb_with delete_handler_sends.
  verb_with list_handler_sends. verb_with by_id_handler_sends.
  verb_with list_handler_sends. verb_with by_id_handler_sends.
  verb_with list_handler_sends. verb_with by_id_handler_sends. verb_send. verb_send.
  verb_with delete_handler_sends. verb_send. verb_send.
  verb_with history_handler_sends.
  verb_with list_handler_sends. verb_with by_id_handler_sends. verb_send. verb_send.
  verb_with delete_handler_sends. verb_send. verb_send.
  verb_with history_handler_sends.
  verb_with list_handler_sends. verb_with by_id_handler_sends.
  verb_with list_handler_sends. verb_with by_id_handler_sends.
  apply Forall_nil_2.
Qed.

(** The verb of every request follows the name of the operation that
    made it: an operation named [get_] sends neither a method nor a
    body, so that it reads only; [create_] sends POST and [update_]
    sends PUT, each with a body; [delete_] sends DELETE without one. *)
Theorem CallTool_verb name args log req :
  (CallTool name args log).2 = log ++ [req] → verb_follows_name name req.
Proof.
  destruct (switch name tool_cases) as [handler|] eqn:Hs.
  - intros H.
    apply (proj1 (Forall_forall _ _) tool_cases_verbs (name, handler)
             (switch_Some_elem _ _ _ Hs) args log req).
    cbn [snd]. rewrite <- H.
    destruct (tool_runs _ _ Hs args log)
      as [(endpoint & options & ok & what & _ & _ & Hrun)|[_ Hrun]].
    + by rewrite (CallTool_returned _ _ _ _ _ _ Hs Hrun), Hrun.
    + by rewrite (CallTool_thrown_js _ _ _ _ _ _ Hs Hrun), Hrun.
  - unfold CallTool, try_catch. rewrite Hs. cbn. intros H.
    by apply log_not_extended in H.
Qed.

End Server.

(** ** The server on examples, and across environments *)

(** C10. When the response has a success status but its body cannot be
    parsed as JSON, an empty body included, the executor does not
    return: it throws the generic request failure, the very error a
    network failure of the same message gives, and a handler's [catch]
    turns it into a failure envelope. *)
Theorem parse_failure_is_request_failed
    (apiKey : option string) (fetch fetch' : request → string + Response)
    (json : Type) (JSON_parse : string → string + json)
    (McpError_message : ErrorCode → string → string)
    (endpoint : string) (options : RequestInit) (log : list request)
    (r : Response) (message : string) :
  has_apiKey apiKey = true →
  fetch (sent_request apiKey endpoint options) = inr r →
  response_ok r = true →
  (response_text r = "" ∧ message = "Unexpected end of JSON input")
  ∨ (response_text r ≠ "" ∧ JSON_parse (response_text r) = inl message) →
  fetch' (sent_request apiKey endpoint options) = inl message →
  makeRequest apiKey fetch json JSON_parse McpError_message endpoint options log
  = (Thrown (McpError InternalError ("Request failed: " +:+ message)),
     log ++ [sent_request apiKey endpoint options]) ∧
  makeRequest apiKey fetch' json JSON_parse McpError_message endpoint options log
  = makeRequest apiKey fetch json JSON_parse McpError_message endpoint options log ∧
  ∀ (what : string) (ok : json → envelope),
    try_catch
      (data ← makeRequest apiKey fetch json JSON_parse McpError_message
                endpoint options;
       mret (ok data))
      (λ error, mret (failure McpError_message what error)) log
    = (Returned {| text := what +:+ ": "
                           +:+ McpError_message InternalError
                                 ("Request failed: " +:+ message);
                   isError := true |},
       log ++ [sent_request apiKey endpoint options]).
Proof.
  intros Hkey Hfetch Hok Hbody Hfetch'.
  assert (Hjson : response_json json JSON_parse r = Thrown (JsError message)).
  { unfold response_json. destruct Hbody as [[-> ->]|[Hne Hparse]]; [reflexivity|].
    rewrite Hparse. by destruct (response_text r). }
  assert (Hrun : makeRequest apiKey fetch json JSON_parse McpError_message
                   endpoint options log
                 = (Thrown (request_failed message),
                    log ++ [sent_request apiKey endpoint options]))
    by (by eapply makeRequest_parse_failure).
  split; [exact Hrun|]. split.
  - rewrite Hrun. by apply makeRequest_transport_failure.
  - intros what ok. rewrite try_catch_returns. by rewrite Hrun.
Qed.

Lemma parse_failure_is_request_failed_witness :
  makeRequest sample_key (answer no_content) string sample_parse sample_message
    "/projects/42" {| method := Some "DELETE"; body := None; headers := None |} []
  = (Thrown (McpError InternalError "Request failed: Unexpected end of JSON input"),
     [sent_request sample_key "/projects/42"
        {| method := Some "DELETE"; body := None; headers := None |}]) ∧
  makeRequest sample_key (unreachable "Unexpected end of JSON input") string
    sample_parse sample_message
    "/projects/42" {| method := Some "DELETE"; body := None; headers := None |} []
  = makeRequest sample_key (answer no_content) string sample_parse sample_message
      "/projects/42" {| method := Some "DELETE"; body := None; headers := None |} [] ∧
  ∀ (what : string) (ok : string → envelope),
    try_catch
      (data ← makeRequest sample_key (answer no_content) string sample_parse
                sample_message "/projects/42"
                {| method := Some "DELETE"; body := None; headers := None |};
       mret (ok data))
      (λ error, mret (failure sample_message what error)) []
    = (Returned {| text := what +:+ ": "
                           +:+ sample_message InternalError
                                 ("Request failed: " +:+ "Unexpected end of JSON input");
                   isError := true |},
       [] ++ [sent_request sample_key "/projects/42"
                {| method := Some "DELETE"; body := None; headers := None |}]).
Proof.
  apply (parse_failure_is_request_failed sample_key (answer no_content)
           (unreachable "Unexpected end of JSON input") string sample_parse
           sample_message "/projects/42"
           {| method := Some "DELETE"; body := None; headers := None |} []
           no_content "Unexpected end of JSON input").
  - reflexivity.
  - reflexivity.
  - reflexivity.
  - left. split; reflexivity.
  - reflexivity.
Defined.

Lemma makeRequest_requires_credential_witness :
  makeRequest None (answer ok_response) string sample_parse sample_message
    "/projects" {| method := Some "POST"; body := Some "{}"; headers := None |} []
  = (Thrown (McpError InvalidRequest
               "TIMECHIMP_API_KEY environment variable is required"), []).
Proof.
  apply (makeRequest_requires_credential None (answer ok_response) string
           sample_parse sample_message).
  reflexivity.
Defined.

Lemma makeRequest_upstream_error_witness :
  makeRequest sample_key (answer not_found) string sample_parse sample_message
    "/projects/999" no_options []
  = (Thrown (McpError InternalError
               "TimeChimp API error: 404 Not Found - no such project"),
     [sent_request sample_key "/projects/999" no_options]).
Proof.
  apply (makeRequest_upstream_error sample_key (answer not_found) string
           sample_parse sample_message "/projects/999" no_options [] not_found);
    reflexivity.
Defined.

Lemma makeRequest_headers_witness :
  ∃ req,
    (makeRequest sample_key (answer ok_response) string sample_parse sample_message
       "/projects"
       {| method := None; body := None;
          headers := Some {[ "X-Request-Id" := "7" ]} |} []).2
    = [] ++ [req] ∧
    req_headers req !! "api-key"
      = match default ∅ (Some ({[ "X-Request-Id" := "7" ]} : gmap string string))
                !! "api-key" with
        | Some v => Some v
        | None => sample_key
        end ∧
    req_headers req !! "api-version"
      = Some (default "2.0"
                (default ∅ (Some ({[ "X-Request-Id" := "7" ]} : gmap string string))
                   !! "api-version")) ∧
    (∀ k v,
       default ∅ (Some ({[ "X-Request-Id" := "7" ]} : gmap string string)) !! k = Some v →
       req_headers req !! k = Some v).
Proof.
  apply (makeRequest_headers sample_key (answer ok_response) string sample_parse
           sample_message "/projects"
           {| method := None; body := None;
              headers := Some {[ "X-Request-Id" := "7" ]} |} []).
  reflexivity.
Defined.

(** C2, as stated, fails: a caller-supplied [api-key] header takes the
    place of the configured credential. *)
Lemma caller_header_overrides_credential :
  ∃ req,
    (makeRequest sample_key (answer ok_response) string sample_parse sample_message
       "/projects"
       {| method := None; body := None;
          headers := Some {[ "api-key" := "other" ]} |} []).2
    = [req] ∧
    req_headers req !! "api-key" = Some "other" ∧
    req_headers req !! "api-key" ≠ sample_key.
Proof.
  eexists. split; [reflexivity|]. split; [by vm_compute|].
  vm_compute. discriminate.
Qed.

Lemma CallTool_unknown_tool_witness :
  CallTool sample_key (answer ok_response) string sample_parse sample_indented
    sample_stringify sample_message "drop_database" None []
  = (Thrown (McpError MethodNotFound "Unknown tool: drop_database"), []).
Proof.
  apply (CallTool_unknown_tool sample_key (answer ok_response) string sample_parse
           sample_indented sample_stringify sample_message "drop_database" None []).
  apply (bool_decide_unpack _). vm_compute. exact I.
Defined.

(** C3, as stated, fails: for an unknown name the dispatcher returns no
    envelope at all; it throws. *)
Lemma unknown_tool_returns_no_envelope :
  ¬ ∃ env log',
      CallTool sample_key (answer ok_response) string sample_parse sample_indented
        sample_stringify sample_message "drop_database" None []
      = (Returned env, log').
Proof. intros (env & log' & H). vm_compute in H. discriminate. Qed.

Lemma delete_confirms_witness :
  CallTool sample_key (answer ok_response) string sample_parse sample_indented
    sample_stringify sample_message "delete_project"
    (Some (bag_of [("id", VNum 42)])) []
  = (Returned {| text := "Project 42 deleted successfully"; isError := false |},
     [sent_request sample_key "/projects/42"
        {| method := Some "DELETE"; body := None; headers := None |}]).
Proof.
  apply (delete_confirms sample_key (answer ok_response) string sample_parse
           sample_indented sample_stringify sample_message
           "delete_project" "/projects" "Project" "Error deleting project"
           (bag_of [("id", VNum 42)]) [] ok_response).
  - apply (bool_decide_unpack _). vm_compute. exact I.
  - reflexivity.
  - reflexivity.
  - reflexivity.
Defined.



Lemma handleGetRequest_query_witness :
  (handleGetRequest sample_key (answer ok_response) string sample_parse
     sample_indented sample_message "/projects"
     (bag_of [("active_only", VBool true); ("orderby", VStr "name desc")]) VNull []).2
  = [sent_request sample_key
       "/projects?%24orderby=name+desc&%24filter=active+eq+true" no_options] ∧
  params_getAll [("$orderby", "name desc"); ("$filter", "active eq true")] "$filter"
  = ["active eq true"] ∧
  params_getAll [("$orderby", "name desc"); ("$filter", "active eq true")] "$orderby"
  = ["name desc"] ∧
  (∀ name, (name, "/projects") ∈ list_operations →
     CallTool sample_key (answer ok_response) string sample_parse sample_indented
       sample_stringify sample_message name
       (Some (bag_of [("active_only", VBool true); ("orderby", VStr "name desc")])) []
     = handleGetRequest sample_key (answer ok_response) string sample_parse
         sample_indented sample_message "/projects"
         (bag_of [("active_only", VBool true); ("orderby", VStr "name desc")])
         VNull []).
Proof.
  apply (handleGetRequest_query sample_key (answer ok_response) string sample_parse
           sample_indented sample_stringify sample_message "/projects"
           (bag_of [("active_only", VBool true); ("orderby", VStr "name desc")])
           VNull [("$orderby", "name desc"); ("$filter", "active eq true")] []);
    reflexivity.
Defined.

(** *** Further runs of the dispatcher *)

(** A 404 from the service, as the caller sees it. *)
Example get_projects_not_found :
  CallTool sample_key (answer not_found) string sample_parse sample_indented
    sample_stringify sample_message "get_projects" None []
  = (Returned
       {| text := "Error retrieving data from /projects: MCP error -32603: TimeChimp API error: 404 Not Found - no such project";
          isError := true |},
     [sent_request sample_key "/projects" no_options]).
Proof. vm_compute. reflexivity. Qed.

(** C9, as stated, fails: a delete answered with a success status and
    no body does not end in the confirmation; the result is a failure
    envelope. *)
Lemma delete_no_body_is_failure :
  response_ok no_content = true ∧
  CallTool sample_key (answer no_content) string sample_parse sample_indented
    sample_stringify sample_message "delete_project"
    (Some (bag_of [("id", VNum 42)])) []
  = (Returned
       {| text := "Error deleting project: MCP error -32603: Request failed: Unexpected end of JSON input";
          isError := true |},
     [sent_request sample_key "/projects/42"
        {| method := Some "DELETE"; body := None; headers := None |}]) ∧
  CallTool sample_key (answer no_content) string sample_parse sample_indented
    sample_stringify sample_message "delete_project"
    (Some (bag_of [("id", VNum 42)])) []
  ≠ (Returned {| text := "Project 42 deleted successfully"; isError := false |},
     [sent_request sample_key "/projects/42"
        {| method := Some "DELETE"; body := None; headers := None |}]).
Proof.
  split; [reflexivity|]. split; [vm_compute; reflexivity|].
  intros H. vm_compute in H. discriminate H.
Qed.

(** The composed filter takes the place of the raw one. *)
Example list_raw_filter_replaced :
  list_params
    (bag_of [("filter", VStr "code eq 1"); ("active_only", VBool true);
             ("top", VNum 50)]) VNull
  = Returned [("$top", "50"); ("$filter", "active eq true and code eq 1")].
Proof. vm_compute. reflexivity. Qed.

(** A [count] of [null] ends a list operation before any request. *)
Example get_projects_null_count :
  CallTool sample_key (answer ok_response) string sample_parse sample_indented
    sample_stringify sample_message "get_projects"
    (Some (bag_of [("count", VNull)])) []
  = (Thrown (McpError InternalError
               "Tool execution failed: Cannot read properties of null (reading 'toString')"),
     []).
Proof. vm_compute. reflexivity. Qed.

(** With no credential, a list operation reports the configuration
    error and the network is left alone. *)
Example get_projects_without_key :
  CallTool None (answer ok_response) string sample_parse sample_indented
    sample_stringify sample_message "get_projects" None []
  = (Returned
       {| text := "Error retrieving data from /projects: MCP error -32600: TIMECHIMP_API_KEY environment variable is required";
          isError := true |},
     []).
Proof. vm_compute. reflexivity. Qed.

(** *** The further properties on examples *)

Ltac in_table := apply (bool_decide_unpack _); vm_compute; exact I.
Ltac not_null := let H := fresh in intros H; vm_compute in H; discriminate H.

Lemma makeRequest_throws_McpError_witness :
  is_McpError (McpError InternalError
                 "TimeChimp API error: 404 Not Found - no such project") = true.
Proof.
  apply (makeRequest_throws_McpError sample_key (answer not_found) string sample_parse
           sample_message "/projects/999" no_options []).
  reflexivity.
Defined.

Lemma makeRequest_returns_iff_witness :
  makeRequest sample_key (answer ok_response) string sample_parse sample_message
    "/users" no_options []
  = (Returned "{}", [sent_request sample_key "/users" no_options]).
Proof.
  apply (proj2 (makeRequest_returns_iff sample_key (answer ok_response) string
                  sample_parse sample_message "/users" no_options [] "{}"
                  [sent_request sample_key "/users" no_options])).
  split; [reflexivity|]. split; [reflexivity|].
  exists ok_response. repeat split; reflexivity.
Defined.

Lemma CallTool_throws_McpError_witness :
  is_McpError
    (McpError InternalError
       "Tool execution failed: Cannot read properties of null (reading 'toString')")
  = true.
Proof.
  apply (CallTool_throws_McpError sample_key (answer ok_response) string sample_parse
           sample_indented sample_stringify sample_message "get_projects"
           (Some (bag_of [("count", VNull)])) []).
  reflexivity.
Defined.



Lemma CallTool_without_key_witness :
  ∃ what,
    CallTool None (answer ok_response) string sample_parse sample_indented
      sample_stringify sample_message "update_customer"
      (Some (bag_of [("id", VNum 8); ("name", VStr "Acme")])) []
    = (Returned (failure sample_message what missing_key), []).
Proof.
  apply (CallTool_without_key None (answer ok_response) string sample_parse
           sample_indented sample_stringify sample_message "update_customer"
           (Some (bag_of [("id", VNum 8); ("name", VStr "Acme")])) []).
  - in_table.
  - repeat constructor.
  - reflexivity.
  - not_null.
Defined.

Lemma CallTool_with_key_witness :
  ∃ env req,
    CallTool sample_key (answer not_found) string sample_parse sample_indented
      sample_stringify sample_message "get_tags" None []
    = (Returned env, [] ++ [req])
    ∧ req_headers req = fixed_headers sample_key
    ∧ (isError env = false
       ↔ ∃ r data, answer not_found req = inr r ∧ response_ok r = true
                   ∧ response_json string sample_parse r = Returned data).
Proof.
  apply (CallTool_with_key sample_key (answer not_found) string sample_parse
           sample_indented sample_stringify sample_message "get_tags" None []).
  - in_table.
  - repeat constructor.
  - reflexivity.
  - not_null.
Defined.

Lemma CallTool_reads_only_witness :
  CallTool sample_key (answer ok_response) string sample_parse sample_indented
    sample_stringify sample_message "delete_contact"
    (Some (bag_of [("id", VNum 5); ("filter", VStr "active eq false")])) []
  = CallTool sample_key (answer ok_response) string sample_parse sample_indented
      sample_stringify sample_message "delete_contact"
      (Some (bag_of [("id", VNum 5)])) [].
Proof.
  apply (CallTool_reads_only sample_key (answer ok_response) string sample_parse
           sample_indented sample_stringify sample_message "delete_contact" ["id"]).
  - in_table.
  - repeat constructor.
Defined.

Lemma buildQueryParams_throws_iff_witness :
  buildQueryParams (bag_of [("top", VNum 10); ("count", VNull)])
  = Thrown (JsError "Cannot read properties of null (reading 'toString')").
Proof.
  assert (H : Forall (λ k, object_free
                             (prop (bag_of [("top", VNum 10); ("count", VNull)]) k)
                           = true) query_keys) by repeat constructor.
  apply (proj2 (buildQueryParams_throws_iff
                  (bag_of [("top", VNum 10); ("count", VNull)]) _ H)).
  split; reflexivity.
Defined.

Lemma buildQueryParams_order_witness :
  map fst [("$top", "10"); ("$expand", "customer"); ("$filter", "code eq 1")]
    `sublist_of` query_names
  ∧ NoDup (map fst [("$top", "10"); ("$expand", "customer"); ("$filter", "code eq 1")]).
Proof.
  apply (buildQueryParams_order
           (bag_of [("filter", VStr "code eq 1"); ("expand", VStr "customer");
                    ("top", VNum 10)])).
  reflexivity.
Defined.

Lemma list_params_no_duplicates_witness :
  NoDup (map fst [("$filter", "active eq true and code eq 1"); ("$orderby", "name")]).
Proof.
  apply (list_params_no_duplicates
           (bag_of [("filter", VStr "code eq 1"); ("active_only", VBool true)])
           (VStr "name")).
  reflexivity.
Defined.

Lemma composed_present_iff_witness :
  truthy (buildFilterExpression (bag_of [("project_id", VNum 12)])) = true.
Proof.
  apply (proj2 (composed_present_iff (bag_of [("project_id", VNum 12)]))).
  vm_compute. lia.
Defined.

Lemma composed_is_string_witness :
  buildFilterExpression (bag_of [("customer_id", VNum 4); ("filter", VStr "code eq 1")])
  = VStr (String.concat " and "
            (present_fragments
               (bag_of [("customer_id", VNum 4); ("filter", VStr "code eq 1")]))).
Proof.
  apply (composed_is_string
           (bag_of [("customer_id", VNum 4); ("filter", VStr "code eq 1")])).
  right. by exists "code eq 1".
Defined.

Lemma composed_occurrences_witness :
  occurrences " and "
    (String_ (buildFilterExpression
                (bag_of [("user_id", VStr "7"); ("from_date", VStr "2024-01-01");
                         ("to_date", VStr "2024-01-31")])))
  = (present_count
       (bag_of [("user_id", VStr "7"); ("from_date", VStr "2024-01-01");
                ("to_date", VStr "2024-01-31")]) - 1)%nat.
Proof.
  apply (composed_occurrences
           (bag_of [("user_id", VStr "7"); ("from_date", VStr "2024-01-01");
                    ("to_date", VStr "2024-01-31")])).
  repeat constructor.
Defined.

Lemma composed_raw_only_witness :
  buildFilterExpression (bag_of [("filter", VNum 5); ("top", VNum 1)])
  = if truthy (prop (bag_of [("filter", VNum 5); ("top", VNum 1)]) "filter")
    then prop (bag_of [("filter", VNum 5); ("top", VNum 1)]) "filter"
    else VStr "".
Proof.
  apply (composed_raw_only (bag_of [("filter", VNum 5); ("top", VNum 1)])).
  repeat constructor.
Defined.

Lemma get_by_id_request_witness :
  (CallTool sample_key (answer ok_response) string sample_parse sample_indented
     sample_stringify sample_message "get_invoice_by_id"
     (Some (bag_of [("id", VStr "31?$top=1"); ("expand", VStr "customer,lines");
                    ("top", VNum 5)])) []).2
  = [] ++ [ {| req_url :=
                 "https://v2.api.timechimp.com/invoices/31?$top=1?%24expand=customer%2Clines";
               req_method := None; req_body := None;
               req_headers := fixed_headers sample_key |} ].
Proof.
  apply (get_by_id_request sample_key (answer ok_response) string sample_parse
           sample_indented sample_stringify sample_message
           "get_invoice_by_id" "/invoices"
           (bag_of [("id", VStr "31?$top=1"); ("expand", VStr "customer,lines");
                    ("top", VNum 5)]) []).
  - in_table.
  - reflexivity.
  - reflexivity.
  - reflexivity.
Defined.

Lemma delete_without_id_witness :
  CallTool sample_key (answer ok_response) string sample_parse sample_indented
    sample_stringify sample_message "delete_expense" (Some ∅) []
  = (Returned {| text := "Expense undefined deleted successfully"; isError := false |},
     [] ++ [sent_request sample_key "/expenses/undefined"
              {| method := Some "DELETE"; body := None; headers := None |}]).
Proof.
  apply (delete_without_id sample_key (answer ok_response) string sample_parse
           sample_indented sample_stringify sample_message
           "delete_expense" "/expenses" "Expense" "Error deleting expense" ∅ []).
  - in_table.
  - reflexivity.
  - reflexivity.
Defined.


Lemma list_without_options_witness :
  (CallTool sample_key (answer ok_response) string sample_parse sample_indented
     sample_stringify sample_message "get_customers"
     (Some (bag_of [("skip", VNum 0); ("active_only", VBool false);
                    ("filter", VStr "")])) []).2
  = [] ++ [ {| req_url := "https://v2.api.timechimp.com/customers";
               req_method := None; req_body := None;
               req_headers := fixed_headers sample_key |} ].
Proof.
  apply (list_without_options sample_key (answer ok_response) string sample_parse
           sample_indented sample_stringify sample_message
           "get_customers" "/customers"
           (Some (bag_of [("skip", VNum 0); ("active_only", VBool false);
                          ("filter", VStr "")])) []).
  - in_table.
  - reflexivity.
  - repeat constructor.
  - reflexivity.
Defined.

Lemma with_query_injective_witness :
  [("$top", "5"); ("$skip", "10")] ≠ [("$skip", "10"); ("$top", "5")]
  ∧ with_query "/tags" [("$top", "5"); ("$skip", "10")]
    ≠ with_query "/tags" [("$skip", "10"); ("$top", "5")].
Proof.
  split; [discriminate|].
  apply (with_query_injective "/tags" [("$top", "5"); ("$skip", "10")]
           [("$skip", "10"); ("$top", "5")]).
  discriminate.
Defined.

Lemma CallTool_verb_witness :
  verb_follows_name "update_expense_status"
    {| req_url := "https://v2.api.timechimp.com/expenses/status";
       req_method := Some "PUT";
       req_body := Some (sample_stringify
                           (pick (bag_of [("status", VStr "Approved")])
                              ["message"; "expenses"; "status"]));
       req_headers := fixed_headers sample_key |}.
Proof.
  apply (CallTool_verb sample_key (answer ok_response) string sample_parse
           sample_indented sample_stringify sample_message
           "update_expense_status" (Some (bag_of [("status", VStr "Approved")])) []).
  reflexivity.
Defined.

Lemma CallTool_declared_only_witness :
  CallTool sample_key (answer ok_response) string sample_parse sample_indented
    sample_stringify sample_message "create_contact"
    (Some (bag_of [("name", VStr "Ada"); ("id", VNum 4)])) []
  = CallTool sample_key (answer ok_response) string sample_parse sample_indented
      sample_stringify sample_message "create_contact"
      (Some (bag_of [("name", VStr "Ada")])) [].
Proof.
  apply (CallTool_declared_only sample_key (answer ok_response) string sample_parse
           sample_indented sample_stringify sample_message "create_contact"
           ["name"; "jobTitle"; "email"; "phone"; "useForInvoicing"; "active";
            "customers"]
           ["name"]).
  - in_table.
  - apply (bool_decide_unpack _). vm_compute. exact I.
  - repeat constructor.
Defined.

Lemma list_operation_reads_undeclared_witness :
  ∃ k fragment,
    (k ∉ ["top"; "skip"; "count"; "expand"; "active_only"; "filter"; "orderby"])
    ∧ (k, fragment) ∈ [("active_only", "active+eq+true");
                       ("user_id", "user%2Fid+eq+true")]
    ∧ (CallTool sample_key (answer ok_response) string sample_parse sample_indented
         sample_stringify sample_message "get_projects"
         (Some {[ k := VBool true ]}) []).2
      = [] ++ [sent_request sample_key ("/projects" +:+ "?%24filter=" +:+ fragment)
                 no_options].
Proof.
  apply (list_operation_reads_undeclared sample_key (answer ok_response) string
           sample_parse sample_indented sample_stringify sample_message
           "get_projects" "/projects"
           ["top"; "skip"; "count"; "expand"; "active_only"; "filter"; "orderby"] []).
  - in_table.
  - in_table.
  - reflexivity.
Defined.
